(** * kf-central-db-integration-demo: the request handler of [main.go]

    A shallow embedding of [handleRequest] together with the parts of the Go
    standard library it calls ([encoding/json], [net/url], [net/http],
    [html/template], [fmt]), and the properties of the handler stated in the
    specification.

    Go strings and byte slices are Rocq [string]s (sequences of 8-bit
    characters).  A Go [map[string]T] is an [option (gmap string T)]: [None]
    is the nil map, which can be read and ranged over but not assigned to.
    [log.Printf] and [fmt.Println] only write diagnostics to the process's
    standard streams and are left out. *)

From Stdlib Require Import ZArith NArith Ascii.
From stdpp Require Import base strings list gmap sorting.

Set Warnings "-register-all".
Local Open Scope N_scope.

(** ** Bytes *)

Definition byte (c : ascii) : N := N_of_ascii c.
Definition chr (n : N) : ascii := ascii_of_N n.
Definition str1 (n : N) : string := String (chr n) "".

Definition between (lo hi : N) (c : ascii) : bool :=
  (lo <=? byte c) && (byte c <=? hi).

Definition isDigit (c : ascii) : bool := between 48 57 c.

Definition isHex (c : ascii) : bool :=
  isDigit c || between 97 102 c || between 65 70 c.

Definition hexval (c : ascii) : N :=
  if isDigit c then byte c - 48
  else if between 97 102 c then byte c - 97 + 10
  else byte c - 65 + 10.

(** The double quote, written by its code. *)
Definition quote : string := str1 34.

Fixpoint span_digits (s : string) : string * string :=
  match s with
  | String c s' =>
      if isDigit c then let '(ds, r) := span_digits s' in (String c ds, r)
      else ("", s)
  | "" => ("", "")
  end.

Fixpoint digits_to_Z (acc : Z) (s : string) : Z :=
  match s with
  | String c s' => digits_to_Z (10 * acc + Z.of_N (byte c - 48)) s'
  | "" => acc
  end.

(** ** Go values held in an [interface{}]

    The dynamic values this program stores in its two maps: what
    [json.Unmarshal] produces for an [interface{}] target (nil, bool,
    float64, string, [[]interface{}], [map[string]interface{}]) and the
    [[]string] of a multi-valued form field.  A float64 is kept as the JSON
    number literal it was decoded from.  A nested map is kept as its members
    in source order; a later member with the same key overrides an earlier
    one. *)

Inductive value : Type :=
  | Nil
  | Bool (b : bool)
  | Float64 (lit : string)
  | Str (s : string)
  | StrSlice (l : list string)
  | Slice (l : list value)
  | Map (members : list (string * value)).

(** ** unicode/utf8 *)

Module utf8.

(** [RuneError], U+FFFD, encoded. *)
Definition RuneError : string := String (chr 239) (String (chr 191) (String (chr 189) "")).

Definition cont (c : ascii) : bool := between 128 191 c.

(** Length of the well-formed encoding at the head of [s] when it is a
    multi-byte one (as [DecodeRune] accepts it), else 0. *)
Definition multibyte_len (s : string) : nat :=
  match s with
  | String b0 (String b1 rest) =>
      if between 194 223 b0 then (if cont b1 then 2%nat else 0%nat)
      else
        match rest with
        | String b2 rest' =>
            let lo1 := if byte b0 =? 224 then 160 else if byte b0 =? 240 then 144 else 128 in
            let hi1 := if byte b0 =? 237 then 159 else if byte b0 =? 244 then 143 else 191 in
            if between 224 239 b0 then
              (if between lo1 hi1 b1 && cont b2 then 3%nat else 0%nat)
            else if between 240 244 b0 then
              match rest' with
              | String b3 _ =>
                  if between lo1 hi1 b1 && cont b2 && cont b3 then 4%nat else 0%nat
              | "" => 0%nat
              end
            else 0%nat
        | "" => 0%nat
        end
  | _ => 0%nat
  end.

(** [EncodeRune]: surrogates and values above U+10FFFF encode as
    [RuneError]. *)
Definition EncodeRune (r : N) : string :=
  if r <? 128 then str1 r
  else if r <? 2048 then
    String (chr (192 + r / 64)) (str1 (128 + r mod 64))
  else if (55296 <=? r) && (r <=? 57343) then RuneError
  else if r <? 65536 then
    String (chr (224 + r / 4096))
      (String (chr (128 + (r / 64) mod 64)) (str1 (128 + r mod 64)))
  else if r <=? 1114111 then
    String (chr (240 + r / 262144))
      (String (chr (128 + (r / 4096) mod 64))
         (String (chr (128 + (r / 64) mod 64)) (str1 (128 + r mod 64))))
  else RuneError.

End utf8.

(** ** encoding/json: [Unmarshal] into a [map[string]interface{}] *)

Module json.

Inductive error : Type :=
  | SyntaxError          (* the input is not one JSON value; or nesting deeper than 10000 *)
  | UnmarshalTypeError.  (* a value that does not fit its Go target *)

(** Outcome of scanning a value at the head of the input: the value and
    the unread rest, a syntax error, or the recursion budget used up. *)
Inductive scanned (A : Type) : Type :=
  | Scanned (a : A) (rest : string)
  | Invalid
  | OutOfFuel.
Arguments Scanned {A} a rest.
Arguments Invalid {A}.
Arguments OutOfFuel {A}.

Definition isSpace (c : ascii) : bool :=
  match byte c with
  | 32 | 9 | 13 | 10 => true
  | _ => false
  end.

Fixpoint skip_space (s : string) : string :=
  match s with
  | String c s' => if isSpace c then skip_space s' else s
  | "" => ""
  end.

Definition maxNestingDepth : N := 10000.

(** *** Numbers: an optional minus, an integer part without leading zeros,
  an optional fraction, an optional exponent *)

Definition scan_int (s : string) : option (string * string) :=
  match s with
  | String c s' =>
      if byte c =? 48 then Some (String c "", s')
      else if between 49 57 c then
        let '(ds, r) := span_digits s' in Some (String c ds, r)
      else None
  | "" => None
  end.

Definition scan_frac (s : string) : option (string * string) :=
  match s with
  | String c s' =>
      if byte c =? 46 (* . *) then
        match span_digits s' with
        | ("", _) => None
        | (ds, r) => Some (String c ds, r)
        end
      else Some ("", s)
  | "" => Some ("", "")
  end.

Definition scan_exp (s : string) : option (string * string) :=
  match s with
  | String c s' =>
      if (byte c =? 101) || (byte c =? 69) (* e E *) then
        let '(sign, s'') :=
          match s' with
          | String d t => if (byte d =? 43) || (byte d =? 45) then (String d "", t) else ("", s')
          | "" => ("", "")
          end in
        match span_digits s'' with
        | ("", _) => None
        | (ds, r) => Some (String c (sign +:+ ds), r)
        end
      else Some ("", s)
  | "" => Some ("", "")
  end.

Definition scan_number (s : string) : option (string * string) :=
  let '(sign, s0) :=
    match s with
    | String c s' => if byte c =? 45 then (String c "", s') else ("", s)
    | "" => ("", "")
    end in
  '(i, s1) ← scan_int s0;
  '(f, s2) ← scan_frac s1;
  '(e, s3) ← scan_exp s2;
  Some (sign +:+ i +:+ f +:+ e, s3).

(** *** Strings: the raw text between the quotes, escapes still in place *)

Definition simple_escape (c : ascii) : bool :=
  match byte c with
  | 34 | 92 | 47 | 98 | 102 | 110 | 114 | 116 => true   (* quote \ / b f n r t *)
  | _ => false
  end.

Fixpoint scan_string (s : string) : option (string * string) :=
  match s with
  | "" => None
  | String c s' =>
      if byte c =? 34 then Some ("", s')
      else if byte c =? 92 then
        match s' with
        | String e s'' =>
            if simple_escape e then
              '(raw, r) ← scan_string s''; Some (String c (String e raw), r)
            else if byte e =? 117 (* u *) then
              match s'' with
              | String h1 (String h2 (String h3 (String h4 s5))) =>
                  if isHex h1 && isHex h2 && isHex h3 && isHex h4 then
                    '(raw, r) ← scan_string s5;
                    Some (String c (String e (String h1 (String h2 (String h3 (String h4 raw))))), r)
                  else None
              | _ => None
              end
            else None
        | "" => None
        end
      else if byte c <? 32 then None
      else '(raw, r) ← scan_string s'; Some (String c raw, r)
  end.

(** The byte a one-letter escape stands for. *)
Definition unescape1 (e : ascii) : ascii :=
  match byte e with
  | 98 => chr 8 | 102 => chr 12 | 110 => chr 10 | 114 => chr 13 | 116 => chr 9
  | _ => e
  end.

(** [getu4]: the code unit of a [\uXXXX] escape at the head of [s]. *)
Definition getu4 (s : string) : option (N * string) :=
  match s with
  | String b (String u (String h1 (String h2 (String h3 (String h4 rest))))) =>
      if (byte b =? 92) && (byte u =? 117)
         && isHex h1 && isHex h2 && isHex h3 && isHex h4
      then Some (((hexval h1 * 16 + hexval h2) * 16 + hexval h3) * 16 + hexval h4, rest)
      else None
  | _ => None
  end.

(** [unquote]: resolves the escapes of a scanned string and coerces it to
    well-formed UTF-8.  [copy] counts the continuation bytes of a well-formed
    multi-byte encoding still to be copied.  A scanned string has no
    malformed escape; on one the result is cut short. *)
Fixpoint unquote (copy : nat) (s : string) : string :=
  match s with
  | "" => ""
  | String c s' =>
      match copy with
      | S k => String c (unquote k s')
      | O =>
          if byte c =? 92 then
            match s' with
            | String e s'' =>
                if byte e =? 117 then
                  match s'' with
                  | String h1 (String h2 (String h3 (String h4 s5))) =>
                      let rr := ((hexval h1 * 16 + hexval h2) * 16 + hexval h3) * 16 + hexval h4 in
                      if (55296 <=? rr) && (rr <=? 57343) then
                        match s5 with
                        | String _ (String _ (String _ (String _ (String _ (String _ s11))))) =>
                            match getu4 s5 with
                            | Some (rr1, _) =>
                                if (rr <? 56320) && (56320 <=? rr1) && (rr1 <=? 57343) then
                                  utf8.EncodeRune ((rr - 55296) * 1024 + (rr1 - 56320) + 65536)
                                    +:+ unquote O s11
                                else utf8.RuneError +:+ unquote O s5
                            | None => utf8.RuneError +:+ unquote O s5
                            end
                        | _ => utf8.RuneError +:+ unquote O s5
                        end
                      else utf8.EncodeRune rr +:+ unquote O s5
                  | _ => ""
                  end
                else String (unescape1 e) (unquote O s'')
            | "" => ""
            end
          else if byte c <? 128 then String c (unquote O s')
          else
            match utf8.multibyte_len s with
            | O => utf8.RuneError +:+ unquote O s'
            | S k => String c (unquote k s')
            end
      end
  end.

(** *** Values *)

Fixpoint after (p s : string) : option string :=
  match p, s with
  | "", _ => Some s
  | String a p', String c s' => if Ascii.eqb a c then after p' s' else None
  | _, "" => None
  end.

Definition scan_literal (lit : string) (v : value) (s : string) : scanned value :=
  match after lit s with
  | Some r => Scanned v r
  | None => Invalid
  end.

(** [scan_value fuel depth s] reads one value at the head of [s], which has
    no leading white space; [depth] is the number of objects and arrays
    already open.  [scan_members] and [scan_elems] read what follows the
    opening brace or bracket once it is known not to be closed at once;
    [acc] holds the members or elements read so far. *)
Fixpoint scan_value (fuel : nat) (depth : N) (s : string) {struct fuel} : scanned value :=
  match fuel with
  | O => OutOfFuel
  | S fuel =>
      match s with
      | "" => Invalid
      | String c s' =>
          if byte c =? 123 (* { *) then
            if maxNestingDepth <? depth + 1 then Invalid
            else
              match skip_space s' with
              | String c1 s1 =>
                  if byte c1 =? 125 then Scanned (Map []) s1
                  else scan_members fuel (depth + 1) (String c1 s1) []
              | "" => Invalid
              end
          else if byte c =? 91 (* [ *) then
            if maxNestingDepth <? depth + 1 then Invalid
            else
              match skip_space s' with
              | String c1 s1 =>
                  if byte c1 =? 93 then Scanned (Slice []) s1
                  else scan_elems fuel (depth + 1) (String c1 s1) []
              | "" => Invalid
              end
          else if byte c =? 34 then
            match scan_string s' with
            | Some (raw, r) => Scanned (Str (unquote O raw)) r
            | None => Invalid
            end
          else if byte c =? 116 then scan_literal "true" (Bool true) s
          else if byte c =? 102 then scan_literal "false" (Bool false) s
          else if byte c =? 110 then scan_literal "null" Nil s
          else if (byte c =? 45) || isDigit c then
            match scan_number s with
            | Some (lit, r) => Scanned (Float64 lit) r
            | None => Invalid
            end
          else Invalid
      end
  end
with scan_members (fuel : nat) (depth : N) (s : string)
       (acc : list (string * value)) {struct fuel} : scanned value :=
  match fuel with
  | O => OutOfFuel
  | S fuel =>
      match s with
      | String c s' =>
          if byte c =? 34 then
            match scan_string s' with
            | Some (raw, r) =>
                match skip_space r with
                | String c2 r2 =>
                    if byte c2 =? 58 (* : *) then
                      match scan_value fuel depth (skip_space r2) with
                      | Scanned v r3 =>
                          let acc' := acc ++ [(unquote O raw, v)] in
                          match skip_space r3 with
                          | String c4 r4 =>
                              if byte c4 =? 44 then scan_members fuel depth (skip_space r4) acc'
                              else if byte c4 =? 125 then Scanned (Map acc') r4
                              else Invalid
                          | "" => Invalid
                          end
                      | Invalid => Invalid
                      | OutOfFuel => OutOfFuel
                      end
                    else Invalid
                | "" => Invalid
                end
            | None => Invalid
            end
          else Invalid
      | "" => Invalid
      end
  end
with scan_elems (fuel : nat) (depth : N) (s : string)
       (acc : list value) {struct fuel} : scanned value :=
  match fuel with
  | O => OutOfFuel
  | S fuel =>
      match scan_value fuel depth s with
      | Scanned v r =>
          let acc' := acc ++ [v] in
          match skip_space r with
          | String c r' =>
              if byte c =? 44 then scan_elems fuel depth (skip_space r') acc'
              else if byte c =? 93 then Scanned (Slice acc') r'
              else Invalid
          | "" => Invalid
          end
      | Invalid => Invalid
      | OutOfFuel => OutOfFuel
      end
  end.

(** [checkValid] and the scan proper: exactly one value, with white space
    around it.  Of any two nested calls above, the inner one is on a shorter
    input, so a budget of more than twice the input's length is never used
    up (see [scan_fuel_enough] below). *)
Definition scan (data : string) : scanned value :=
  match scan_value (S (2 * String.length data)) 0 (skip_space data) with
  | Scanned v r =>
      match skip_space r with
      | "" => Scanned v ""
      | _ => Invalid
      end
  | Invalid => Invalid
  | OutOfFuel => OutOfFuel
  end.

(** *** Numbers as float64

    [convertNumber] is [strconv.ParseFloat(lit, 64)], which fails exactly
    when the literal's value rounds to an infinity: when its magnitude is at
    least [2^1024 - 2^970], half an ulp above the largest float64. *)
Definition float64_overflows (lit : string) : bool :=
  let s0 := match lit with String c s' => if byte c =? 45 then s' else lit | "" => "" end in
  let '(i, s1) := span_digits s0 in
  let '(f, s2) :=
    match s1 with
    | String c s' => if byte c =? 46 then span_digits s' else ("", s1)
    | "" => ("", "")
    end in
  let e : Z :=
    match s2 with
    | String _ (String d ds) =>
        if byte d =? 43 then digits_to_Z 0 ds
        else if byte d =? 45 then (- digits_to_Z 0 ds)%Z
        else digits_to_Z 0 (String d ds)
    | _ => 0%Z
    end in
  let m := digits_to_Z 0 (i +:+ f) in
  let e10 := (e - Z.of_nat (String.length f))%Z in
  let limit := (2 ^ 1024 - 2 ^ 970)%Z in
  if (0 <=? e10)%Z then (limit <=? m * 10 ^ e10)%Z
  else (limit * 10 ^ (- e10) <=? m)%Z.

(** Whether decoding [v] into an [interface{}] saves no error. *)
Fixpoint convertible (v : value) : bool :=
  match v with
  | Float64 lit => negb (float64_overflows lit)
  | Slice l => forallb convertible l
  | Map m => forallb (λ kv, convertible kv.2) m
  | _ => true
  end.

(** Storing the members of an object into a map, in source order. *)
Definition store {A : Type} (members : list (string * A)) (m : gmap string A) : gmap string A :=
  fold_left (λ m kv, <[kv.1 := kv.2]> m) members m.

(** [Unmarshal data &v] for [v] of type [map[string]interface{}]: the error,
    or the new contents of [v].  An object is stored into [v] (a nil [v]
    is first replaced by an empty map); the literal [null] sets [v] to nil
    and is no error; any other value does not fit a map. *)
Definition Unmarshal (data : string) (v : option (gmap string value))
  : error + option (gmap string value) :=
  match scan data with
  | Scanned (Map members) _ =>
      if forallb (λ kv, convertible kv.2) members
      then inr (Some (store members (default ∅ v)))
      else inl UnmarshalTypeError
  | Scanned Nil _ => inr None
  | Scanned _ _ => inl UnmarshalTypeError
  | Invalid | OutOfFuel => inl SyntaxError
  end.

End json.

(** ** net/url: query strings *)

Module url.

(** [Values], a [map[string][]string]. *)
Abbreviation Values := (gmap string (list string)).

(** The pieces of [s] between occurrences of [sep]. *)
Fixpoint split (sep : N) (s : string) : list string :=
  match s with
  | "" => [""]
  | String c s' =>
      if byte c =? sep then "" :: split sep s'
      else
        match split sep s' with
        | h :: t => String c h :: t
        | [] => [String c ""]
        end
  end.

(** [strings.Cut]: the text before and after the first [sep]. *)
Fixpoint cut (sep : N) (s : string) : string * string :=
  match s with
  | "" => ("", "")
  | String c s' =>
      if byte c =? sep then ("", s')
      else let '(a, b) := cut sep s' in (String c a, b)
  end.

Fixpoint contains (ch : N) (s : string) : bool :=
  match s with
  | "" => false
  | String c s' => (byte c =? ch) || contains ch s'
  end.

(** [QueryUnescape]: [+] is a space, [%XX] a byte; [None] is the
    [EscapeError] of a [%] not followed by two hexadecimal digits. *)
Fixpoint QueryUnescape (s : string) : option string :=
  match s with
  | "" => Some ""
  | String c s' =>
      if byte c =? 37 then
        match s' with
        | String h1 (String h2 r) =>
            if isHex h1 && isHex h2
            then String (chr (hexval h1 * 16 + hexval h2)) <$> QueryUnescape r
            else None
        | _ => None
        end
      else if byte c =? 43 then String (chr 32) <$> QueryUnescape s'
      else String c <$> QueryUnescape s'
  end.

(** One turn of the loop of [parseQuery], on the piece [key] cut off at an
    ampersand.  A piece with a semicolon or a bad escape is skipped (the
    error it sets is the one [ParseForm] returns and the handler drops). *)
Definition parsePair (m : Values) (key : string) : Values :=
  if contains 59 key then m
  else if bool_decide (key = "") then m
  else
    let '(key, value) := cut 61 key in
    match QueryUnescape key with
    | None => m
    | Some key =>
        match QueryUnescape value with
        | None => m
        | Some value => <[key := default [] (m !! key) ++ [value]]> m
        end
    end.

Definition parseQuery (m : Values) (query : string) : Values :=
  fold_left parsePair (split 38 query) m.

Definition ParseQuery (query : string) : Values := parseQuery ∅ query.

End url.

(** ** net/http *)

Module http.

Abbreviation Header := (gmap string (list string)).

Definition validHeaderFieldByte (c : ascii) : bool :=
  isDigit c || between 65 90 c || between 97 122 c ||
  match byte c with
  | 33 | 35 | 36 | 37 | 38 | 39 | 42 | 43 | 45 | 46 | 94 | 95 | 96 | 124 | 126 => true
  | _ => false
  end.

Fixpoint validHeaderField (s : string) : bool :=
  match s with
  | "" => true
  | String c s' => validHeaderFieldByte c && validHeaderField s'
  end.

Fixpoint canonical (upper : bool) (s : string) : string :=
  match s with
  | "" => ""
  | String c s' =>
      let c' :=
        if upper && between 97 122 c then chr (byte c - 32)
        else if negb upper && between 65 90 c then chr (byte c + 32)
        else c in
      String c' (canonical (byte c' =? 45) s')
  end.

(** A key with a byte that cannot be in a header name is left as it is. *)
Definition CanonicalMIMEHeaderKey (s : string) : string :=
  if validHeaderField s then canonical true s else s.

Definition Header_Set (h : Header) (key value : string) : Header :=
  <[CanonicalMIMEHeaderKey key := [value]]> h.

Definition Header_Get (h : Header) (key : string) : string :=
  match h !! CanonicalMIMEHeaderKey key with
  | Some (v :: _) => v
  | _ => ""
  end.

Record Cookie : Type := { Name : string; Value : string }.

(** What reading a body to its end gives: [ioutil.ReadAll]'s data, or its
    error. *)
Inductive body : Type :=
  | Data (data : string)
  | ReadError.

(** The incoming request as the handler sees it.  [Header] has canonical
    keys; [Cookies] is what [r.Cookies()] returns, the cookies of the Cookie
    header lines in order. *)
Record Request : Type := {
  Method : string;
  Path : string;
  RawQuery : string;
  Header_ : Header;
  Cookies : list Cookie;
  Body : body
}.

Inductive cookie_error : Type := ErrNoCookie | ErrOther.

(** [r.Cookie(name)]: the first cookie of that name, or [ErrNoCookie]. *)
Definition Request_Cookie (r : Request) (name : string) : cookie_error + Cookie :=
  match filter (λ c, Name c = name) (Cookies r) with
  | c :: _ => inr c
  | [] => inl ErrNoCookie
  end.

(** The response of an upstream call as the handler uses it. *)
Record Response : Type := {
  StatusCode : Z;
  RespBody : body
}.

Definition MethodGet : string := "GET".
Definition MethodPost : string := "POST".
Definition StatusOK : Z := 200.
Definition StatusBadRequest : Z := 400.
Definition StatusMethodNotAllowed : Z := 405.
Definition StatusInternalServerError : Z := 500.

(** *** The server's [ResponseWriter]

    [handlerHeader] is the map [w.Header()] returns.  The first
    [WriteHeader] of a final status fixes the status and the headers that go
    out ([sentHeader]): those the handler has set, less the ones the server
    leaves out for the status.  The headers the server adds of its own are
    not kept.  [written] is the body sent to the client. *)
Record ResponseWriter : Type := {
  handlerHeader : Header;
  wroteHeader : bool;
  status : Z;
  sentHeader : Header;
  written : string;
  reqMethod : string
}.

Definition newResponse (r : Request) : ResponseWriter :=
  {| handlerHeader := ∅; wroteHeader := false; status := 0%Z; sentHeader := ∅;
     written := ""; reqMethod := Method r |}.

Definition setHeader (w : ResponseWriter) (key value : string) : ResponseWriter :=
  {| handlerHeader := Header_Set (handlerHeader w) key value;
     wroteHeader := wroteHeader w; status := status w; sentHeader := sentHeader w;
     written := written w; reqMethod := reqMethod w |}.

Definition bodyAllowedForStatus (status : Z) : bool :=
  negb (((100 <=? status)%Z && (status <=? 199)%Z) || (status =? 204)%Z || (status =? 304)%Z).

(** [suppressedHeaders]: the headers the server leaves out of a reply whose
    status permits no body; a 304 goes without its [Content-Type] too. *)
Definition suppressedHeaders (status : Z) : list string :=
  if (status =? 304)%Z then ["Content-Type"; "Content-Length"; "Transfer-Encoding"]
  else if negb (bodyAllowedForStatus status) then ["Content-Length"; "Transfer-Encoding"]
  else [].

(** The headers of the handler that go out with a status. *)
Definition sent (h : Header) (status : Z) : Header :=
  foldr (λ key h, delete key h) h (suppressedHeaders status).

(** [WriteHeader]: [None] is the panic of [checkWriteHeaderCode] on a code
    that is not three digits.  A second call is ignored.  An informational
    code (1xx other than 101) goes out as an interim response and leaves the
    final status open. *)
Definition WriteHeader (w : ResponseWriter) (code : Z) : option ResponseWriter :=
  if wroteHeader w then Some w
  else if (code <? 100)%Z || (999 <? code)%Z then None
  else if (code <=? 199)%Z && negb (code =? 101)%Z then Some w
  else Some {| handlerHeader := handlerHeader w; wroteHeader := true; status := code;
               sentHeader := sent (handlerHeader w) code; written := written w;
               reqMethod := reqMethod w |}.

(** [Write]: sends status 200 first when no status was sent; the data is
    dropped when the status permits no body or the request is a HEAD. *)
Definition Write (w : ResponseWriter) (data : string) : ResponseWriter :=
  let w := if wroteHeader w then w
           else {| handlerHeader := handlerHeader w; wroteHeader := true; status := StatusOK;
                   sentHeader := sent (handlerHeader w) StatusOK; written := written w;
                   reqMethod := reqMethod w |} in
  if bool_decide (data = "") then w
  else if negb (bodyAllowedForStatus (status w)) then w
  else if bool_decide (reqMethod w = "HEAD") then w
  else {| handlerHeader := handlerHeader w; wroteHeader := wroteHeader w; status := status w;
          sentHeader := sentHeader w; written := written w +:+ data;
          reqMethod := reqMethod w |}.

(** [http.Error]: a plain-text reply, the message on a line of its own. *)
Definition Error_headers (w : ResponseWriter) : ResponseWriter :=
  setHeader (setHeader w "Content-Type" "text/plain; charset=utf-8")
    "X-Content-Type-Options" "nosniff".

Definition Error (w : ResponseWriter) (error : string) (code : Z) : option ResponseWriter :=
  w ← WriteHeader (Error_headers w) code;
  Some (Write w (error +:+ str1 10)).

End http.

(** ** Maps in key order

    [fmt] prints a map, and a template ranges over one, in the order of its
    keys; strings are ordered byte by byte. *)

Definition key_le {A : Type} (a b : string * A) : Prop := String.leb a.1 b.1.

#[local] Instance key_le_dec {A : Type} (a b : string * A) : Decision (key_le a b).
Proof. unfold key_le. apply _. Defined.

Definition sorted_items {A : Type} (m : gmap string A) : list (string * A) :=
  merge_sort key_le (map_to_list m).

Fixpoint join (sep : string) (l : list string) : string :=
  match l with
  | [] => ""
  | [x] => x
  | x :: l' => x +:+ sep +:+ join sep l'
  end.

Section Program.

(** What [%v] prints for the float64 nearest to a number literal
    ([strconv.FormatFloat(f, 'g', -1, 64)]). *)
Variable FormatFloat : string → string.

(** The network: what [http.Get] returns for a URL, an error or a
    response. *)
Variable http_Get : string → option http.Response.

(** ** fmt: the [%v] text of a value *)

Fixpoint Sprint (v : value) : string :=
  match v with
  | Nil => "<nil>"
  | Bool b => if b then "true" else "false"
  | Float64 lit => FormatFloat lit
  | Str s => s
  | StrSlice l => "[" +:+ join " " l +:+ "]"
  | Slice l => "[" +:+ join " " (map Sprint l) +:+ "]"
  | Map members =>
      let printed := json.store (map (λ kv, (kv.1, Sprint kv.2)) members) ∅ in
      "map[" +:+ join " " (map (λ kv, kv.1 +:+ ":" +:+ kv.2) (sorted_items printed)) +:+ "]"
  end.

(** ** html/template *)

Record ParamsData : Type := {
  Params : option (gmap string value);
  ModelRegistry : option (gmap string value)
}.

(** The escaper of an action in HTML text: what each byte is replaced
    by. *)
Definition htmlReplacement (c : ascii) : string :=
  match byte c with
  | 0 => utf8.RuneError
  | 34 => "&#34;"
  | 38 => "&amp;"
  | 39 => "&#39;"
  | 43 => "&#43;"
  | 60 => "&lt;"
  | 62 => "&gt;"
  | _ => String c ""
  end.

Fixpoint htmlEscape (s : string) : string :=
  match s with
  | "" => ""
  | String c s' => htmlReplacement c +:+ htmlEscape s'
  end.

(** A line of the template text: its tabs, its text and the line end. *)
Definition tabs (n : nat) : string := String.concat "" (replicate n (str1 9)).
Definition line (n : nat) (text : string) : string := tabs n +:+ text +:+ str1 10.

(** The text of [tmpl] before the first [range], between the two, and after
    the second. *)
Definition tmpl_head : string :=
  str1 10 +:+
  line 1 "<!DOCTYPE html>" +:+
  line 1 "<html>" +:+
  line 1 "<head>" +:+
  line 2 "<title>Request Parameters and Model Registry Data</title>" +:+
  line 2 "<style>" +:+
  line 3 "body { font-family: Arial, sans-serif; margin: 20px; }" +:+
  line 3 "h1 { color: #333; }" +:+
  line 3 "h2 { color: #444; }" +:+
  line 3 "ul { list-style-type: none; padding: 0; }" +:+
  line 3 "li { background: #f4f4f4; margin: 5px 0; padding: 10px; border-radius: 4px; }" +:+
  line 3 "strong { color: #555; }" +:+
  line 2 "</style>" +:+
  line 1 "</head>" +:+
  line 1 "<body>" +:+
  line 2 "<h1>Request Parameters and Authentication Details</h1>" +:+
  line 2 "<ul>" +:+
  tabs 3.

Definition tmpl_middle : string :=
  str1 10 +:+
  line 2 "</ul>" +:+
  str1 10 +:+
  line 2 "<h2>Model Registry Data</h2>" +:+
  line 2 "<ul>" +:+
  tabs 3.

Definition tmpl_tail : string :=
  str1 10 +:+
  line 2 "</ul>" +:+
  line 1 "</body>" +:+
  line 1 "</html>" +:+
  tabs 1.

(** One turn of a [range]: the list item of a key and its value. *)
Definition item_open : string := str1 10 +:+ tabs 4 +:+ "<li><strong>".
Definition item_middle : string := ":</strong> ".
Definition item_close : string := "</li>" +:+ str1 10 +:+ tabs 3.

Definition item (kv : string * value) : string :=
  item_open +:+ htmlEscape kv.1 +:+ item_middle +:+ htmlEscape (Sprint kv.2) +:+ item_close.

(** [range] over a map visits its entries in key order; a nil map has
    none. *)
Definition range (m : option (gmap string value)) : string :=
  foldr (λ kv rest, item kv +:+ rest) "" (sorted_items (default ∅ m)).

(** [t.Execute(w, data)]: the page. *)
Definition Execute (data : ParamsData) : string :=
  tmpl_head +:+ range (Params data) +:+ tmpl_middle +:+ range (ModelRegistry data) +:+ tmpl_tail.

(** ** The handler's effects

    A handler runs on a [World]: the response writer it was given and the
    trace of what it did besides computing (reading the request body, parsing
    the form, calling out, executing the template).  It passes a value on,
    leaves by [return], or panics. *)

Inductive event : Type :=
  | ReadBody
  | ParseForm
  | HttpGet (url : string)
  | TemplateExecute.

Record World : Type := {
  w : http.ResponseWriter;
  trace : list event
}.

Inductive flow (A : Type) : Type :=
  | Next (a : A)
  | Return
  | Panic (msg : string).
#[global] Arguments Next {A} a.
#[global] Arguments Return {A}.
#[global] Arguments Panic {A} msg.

Definition Handler (A : Type) : Type := World → flow A * World.

#[global] Instance Handler_ret : MRet Handler := λ A a σ, (Next a, σ).

#[global] Instance Handler_bind : MBind Handler := λ A B f m σ,
  match m σ with
  | (Next a, σ') => f a σ'
  | (Return, σ') => (Return, σ')
  | (Panic msg, σ') => (Panic msg, σ')
  end.

Definition return_ {A : Type} : Handler A := λ σ, (Return, σ).

Definition panic {A : Type} (msg : string) : Handler A := λ σ, (Panic msg, σ).

Definition emit (e : event) : Handler unit :=
  λ σ, (Next (), {| w := w σ; trace := trace σ ++ [e] |}).

(** [w.Header().Set(key, value)] *)
Definition Header_Set (key value : string) : Handler unit :=
  λ σ, (Next (), {| w := http.setHeader (w σ) key value; trace := trace σ |}).

(** [http.Error(w, error, code)] *)
Definition http_Error (error : string) (code : Z) : Handler unit :=
  λ σ,
    match http.Error (w σ) error code with
    | Some w' => (Next (), {| w := w'; trace := trace σ |})
    | None =>
        (Panic "invalid WriteHeader code",
         {| w := http.Error_headers (w σ); trace := trace σ |})
    end.

Definition Write (data : string) : Handler unit :=
  λ σ, (Next (), {| w := http.Write (w σ) data; trace := trace σ |}).

(** [m[key] = v]: assigning to an entry of a nil map panics. *)
Definition assign (m : option (gmap string value)) (key : string) (v : value)
  : Handler (option (gmap string value)) :=
  match m with
  | Some m => mret (Some (<[key := v]> m))
  | None => panic "assignment to entry in nil map"
  end.

(** ** [handleRequest] *)

Definition modelRegistryURL : string :=
  "http://model-registry-bff-service.kubeflow.svc.cluster.local:4000/api/v1/model_registry".

(** The value the loop over [r.Form] stores for a key. *)
Definition form_value (values : list string) : value :=
  match values with
  | [v] => Str v
  | _ => StrSlice values
  end.

(** Lines 40-70: [params] from the body of a POST or the query of a GET.
    For a GET, [r.ParseForm()] sets [r.Form] to the parsed query. *)
Definition read_params (r : http.Request) : Handler (option (gmap string value)) :=
  let params : option (gmap string value) := None in
  if bool_decide (http.Method r = http.MethodPost) then
    emit ReadBody;;
    match http.Body r with
    | http.ReadError =>
        http_Error "Unable to read request body" http.StatusBadRequest;; return_
    | http.Data body =>
        if (0 <? String.length body)%nat then
          match json.Unmarshal body params with
          | inl err =>
              http_Error "Invalid JSON in request body" http.StatusBadRequest;; return_
          | inr params => mret params
          end
        else mret (Some ∅)
    end
  else if bool_decide (http.Method r = http.MethodGet) then
    emit ParseForm;;
    let Form := url.ParseQuery (http.RawQuery r) in
    mret (Some (map_fold (λ key values params, <[key := form_value values]> params) ∅ Form))
  else mret params.

(** Lines 72-85: the oauth2_proxy_kubeflow cookie. *)
Definition read_cookie (r : http.Request) (params : option (gmap string value))
  : Handler (option (gmap string value)) :=
  match http.Request_Cookie r "oauth2_proxy_kubeflow" with
  | inl http.ErrNoCookie => assign params "oauth2_proxy_kubeflow" Nil
  | inl _ => http_Error "Error reading cookies" http.StatusBadRequest;; return_
  | inr oauthCookie => assign params "oauth2_proxy_kubeflow" (Str (http.Value oauthCookie))
  end.

(** Lines 87-101: a header is copied into [params] when it is not empty. *)
Definition read_header (r : http.Request) (name : string) (params : option (gmap string value))
  : Handler (option (gmap string value)) :=
  let v := http.Header_Get (http.Header_ r) name in
  if bool_decide (v = "") then mret params
  else assign params name (Str v).

(** Lines 103-134: the call of the model-registry service. *)
Definition call_model_registry : Handler (option (gmap string value)) :=
  emit (HttpGet modelRegistryURL);;
  match http_Get modelRegistryURL with
  | None =>
      http_Error "Error calling model registry service" http.StatusInternalServerError;;
      return_
  | Some modelRegistryResp =>
      if negb (http.StatusCode modelRegistryResp =? http.StatusOK)%Z then
        http_Error "Model registry service error" (http.StatusCode modelRegistryResp);;
        return_
      else
        match http.RespBody modelRegistryResp with
        | http.ReadError =>
            http_Error "Error reading model registry response" http.StatusInternalServerError;;
            return_
        | http.Data modelRegistryBody =>
            let modelRegistryData : option (gmap string value) := None in
            match json.Unmarshal modelRegistryBody modelRegistryData with
            | inl err =>
                http_Error "Invalid JSON from model registry service" http.StatusBadRequest;;
                return_
            | inr modelRegistryData => mret modelRegistryData
            end
        end
  end.

(** Lines 136-184: the page.  The template text is a constant that parses,
    and writing to the response writer of this model does not fail, so
    neither error branch is taken. *)
Definition render (params modelRegistryData : option (gmap string value)) : Handler unit :=
  let data := {| Params := params; ModelRegistry := modelRegistryData |} in
  Header_Set "Content-Type" "text/html; charset=utf-8";;
  emit TemplateExecute;;
  Write (Execute data).

Definition handleRequest (r : http.Request) : Handler unit :=
  Header_Set "X-Frame-Options" "ALLOWALL";;
  Header_Set "Content-Security-Policy" "frame-ancestors *;";;
  if negb (bool_decide (http.Method r = http.MethodGet))
     && negb (bool_decide (http.Method r = http.MethodPost)) then
    http_Error "Method not allowed" http.StatusMethodNotAllowed;; return_
  else
    params ← read_params r;
    params ← read_cookie r params;
    params ← read_header r "kubeflow-userid" params;
    params ← read_header r "x-forwarded-access-token" params;
    modelRegistryData ← call_model_registry;
    render params modelRegistryData.

(** The server calls the handler with a fresh response writer. *)
Definition serve (r : http.Request) : flow unit * World :=
  handleRequest r {| w := http.newResponse r; trace := [] |}.

End Program.

(** ** Notions used to state the properties *)

(** The text is one JSON object; the text is the JSON literal [null]. *)
Definition json_object (data : string) : Prop :=
  ∃ members, json.scan data = json.Scanned (Map members) "".

Definition json_null (data : string) : Prop :=
  json.scan data = json.Scanned Nil "".

(** The body [http.Error] writes for a message. *)
Definition error_body (msg : string) : string := msg +:+ str1 10.

(** What went out to the client at the end of a run. *)
Definition status_of (x : flow unit * World) : Z := http.status (w x.2).
Definition body_of (x : flow unit * World) : string := http.written (w x.2).
Definition responded (x : flow unit * World) : bool := http.wroteHeader (w x.2).

(** The headers of the response: those sent, or, while none are sent, those
    set so far. *)
Definition headers_of (x : flow unit * World) : http.Header :=
  if http.wroteHeader (w x.2) then http.sentHeader (w x.2) else http.handlerHeader (w x.2).

(** The URLs called during a run. *)
Definition calls (t : list event) : list string :=
  omap (λ e, match e with HttpGet url => Some url | _ => None end) t.

(** [params] after lines 72-101, for a map [m] that is not nil. *)
Definition with_cookie (r : http.Request) (m : gmap string value) : gmap string value :=
  match http.Request_Cookie r "oauth2_proxy_kubeflow" with
  | inr c => <["oauth2_proxy_kubeflow" := Str (http.Value c)]> m
  | inl _ => <["oauth2_proxy_kubeflow" := Nil]> m
  end.

Definition with_header (r : http.Request) (name : string) (m : gmap string value)
  : gmap string value :=
  let v := http.Header_Get (http.Header_ r) name in
  if bool_decide (v = "") then m else <[name := Str v]> m.

Definition with_auth (r : http.Request) (m : gmap string value) : gmap string value :=
  with_header r "x-forwarded-access-token" (with_header r "kubeflow-userid" (with_cookie r m)).

(** [strings.HasPrefix] and [strings.Count] for a pattern that cannot
    overlap itself. *)
Fixpoint HasPrefix (s prefix : string) : bool :=
  match prefix, s with
  | "", _ => true
  | String a p', String c s' => Ascii.eqb a c && HasPrefix s' p'
  | _, "" => false
  end.


(** Lines 32-101 as one step: the frame headers, the method check and the
    collection of [params]. *)
Definition collect (r : http.Request) : Handler (option (gmap string value)) :=
  Header_Set "X-Frame-Options" "ALLOWALL";;
  Header_Set "Content-Security-Policy" "frame-ancestors *;";;
  if negb (bool_decide (http.Method r = http.MethodGet))
     && negb (bool_decide (http.Method r = http.MethodPost)) then
    http_Error "Method not allowed" http.StatusMethodNotAllowed;; return_
  else
    params ← read_params r;
    params ← read_cookie r params;
    params ← read_header r "kubeflow-userid" params;
    read_header r "x-forwarded-access-token" params.

(** The reply of [http.Error] on a writer that has sent nothing, for a final
    status. *)
Definition error_reply (w : http.ResponseWriter) (msg : string) (code : Z) : http.ResponseWriter :=
  let h := http.Header_Set
             (http.Header_Set (http.handlerHeader w) "Content-Type" "text/plain; charset=utf-8")
             "X-Content-Type-Options" "nosniff" in
  {| http.handlerHeader := h; http.wroteHeader := true; http.status := code;
     http.sentHeader := http.sent h code;
     http.written :=
       if http.bodyAllowedForStatus code && negb (bool_decide (http.reqMethod w = "HEAD"))
       then http.written w +:+ error_body msg else http.written w;
     http.reqMethod := http.reqMethod w |}.

(** The world a run starts in, and the response writer once the two frame
    headers are set. *)
Definition fresh (r : http.Request) : World :=
  {| w := http.newResponse r; trace := [] |}.

Definition framed (r : http.Request) : http.ResponseWriter :=
  http.setHeader (http.setHeader (http.newResponse r) "X-Frame-Options" "ALLOWALL")
    "Content-Security-Policy" "frame-ancestors *;".

(** The method is one the handler serves. *)
Definition allowed (r : http.Request) : Prop :=
  http.Method r = http.MethodGet ∨ http.Method r = http.MethodPost.

(** [params] as the loop of lines 63-69 builds it from a parsed form. *)
Definition form_params (Form : url.Values) : gmap string value :=
  map_fold (λ key values params, <[key := form_value values]> params) ∅ Form.

(** The two headers that permit framing. *)
Definition frame_headers (h : http.Header) : Prop :=
  h !! "X-Frame-Options" = Some ["ALLOWALL"]
  ∧ h !! "Content-Security-Policy" = Some ["frame-ancestors *;"].

(** A writer holds them, and has sent them if it has sent anything. *)
Definition framing (x : http.ResponseWriter) : Prop :=
  frame_headers (http.handlerHeader x)
  ∧ (http.wroteHeader x = true → frame_headers (http.sentHeader x)).

Definition framed_world (σ : World) : Prop := framing (w σ).

(** A handler step keeps a property of the world, however it ends. *)
Definition keeps (P : World → Prop) {A : Type} (m : Handler A) : Prop :=
  ∀ σ, P σ → P (m σ).2.

(** The values a query string supplies for a key, in order: those of its
    well-formed pairs with that key. *)
Definition decode_pair (piece : string) : option (string * string) :=
  if url.contains 59 piece then None
  else if bool_decide (piece = "") then None
  else
    let '(key, value) := url.cut 61 piece in
    key ← url.QueryUnescape key;
    value ← url.QueryUnescape value;
    Some (key, value).

Definition supplied_by (pieces : list string) (key : string) : list string :=
  omap (λ piece,
          match decode_pair piece with
          | Some (k, v) => if bool_decide (k = key) then Some v else None
          | None => None
          end) pieces.

Definition supplied (query key : string) : list string :=
  supplied_by (url.split 38 query) key.



(** Valid input, and [params] as line 70 leaves it: the query of a GET;
    for a POST, an empty body, or a body that [json.Unmarshal] decodes as one
    JSON object. *)
Definition valid_input (r : http.Request) (m : gmap string value) : Prop :=
  (http.Method r = "GET" ∧ m = form_params (url.ParseQuery (http.RawQuery r)))
  ∨ (http.Method r = "POST" ∧ http.Body r = http.Data "" ∧ m = ∅)
  ∨ (http.Method r = "POST" ∧
     ∃ body, http.Body r = http.Data body ∧ body ≠ "" ∧
             json.Unmarshal body None = inr (Some m)).



(** All a run needs to get to the page: valid input, and an upstream that
    answers 200 with a body that can be read and that [json.Unmarshal]
    accepts. *)
Definition all_succeed (G : string → option http.Response) (r : http.Request) : Prop :=
  ∃ m resp body data,
    valid_input r m
    ∧ G modelRegistryURL = Some resp
    ∧ http.StatusCode resp = 200%Z
    ∧ http.RespBody resp = http.Data body
    ∧ json.Unmarshal body None = inr data.

(** Scanning [s] with the budget [fuel] ends within the budget, and what it
    leaves unread is shorter than [s]. *)
Definition within_budget (x : json.scanned value) (s : string) : Prop :=
  x ≠ json.OutOfFuel
  ∧ ∀ v r, x = json.Scanned v r → (String.length r < String.length s)%nat.

(** A step that leaves by [return] has answered the client. *)
Definition answers {A : Type} (m : Handler A) : Prop :=
  ∀ σ σ', m σ = (Return, σ') → http.wroteHeader (w σ') = true.

(** ** [main]: the routes

    [main] registers [handleRequest] under two patterns of a [ServeMux] and
    starts a listener on port 8887 with it.  The listener is left out; the
    mux is modelled with its map of patterns, its list of the patterns that
    end in a slash (longest first), and the way it picks a handler for a
    request. *)

Module mux.

Record muxEntry : Type := {
  h : http.Request → Handler unit;
  pattern : string
}.

Record ServeMux : Type := {
  m : gmap string muxEntry;
  es : list muxEntry;
  hosts : bool
}.

Definition NewServeMux : ServeMux := {| m := ∅; es := []; hosts := false |}.

Fixpoint last_byte (s : string) : option ascii :=
  match s with
  | "" => None
  | String c "" => Some c
  | String _ s' => last_byte s'
  end.

Definition ends_in_slash (s : string) : bool :=
  match last_byte s with
  | Some c => byte c =? 47
  | None => false
  end.

Definition starts_with_slash (s : string) : bool :=
  match s with
  | String c _ => byte c =? 47
  | "" => false
  end.

(** [appendSorted]: [e] goes before the first entry with a shorter
    pattern. *)
Fixpoint appendSorted (es : list muxEntry) (e : muxEntry) : list muxEntry :=
  match es with
  | [] => [e]
  | x :: rest =>
      if (String.length (pattern x) <? String.length (pattern e))%nat then e :: es
      else x :: appendSorted rest e
  end.

(** [mux.Handle(pattern, handler)]; [None] is its panic on an empty pattern
    or on a pattern registered before. *)
Definition Handle (mux : ServeMux) (pat : string) (handler : http.Request → Handler unit)
  : option ServeMux :=
  if bool_decide (pat = "") then None
  else if bool_decide (is_Some (m mux !! pat)) then None
  else
    let e := {| h := handler; pattern := pat |} in
    Some {| m := <[pat := e]> (m mux);
            es := if ends_in_slash pat then appendSorted (es mux) e else es mux;
            hosts := hosts mux || negb (starts_with_slash pat) |}.

(** [mux.match(path)]: the pattern equal to the path, else the longest
    pattern ending in a slash that the path begins with. *)
Definition match_ (mux : ServeMux) (path : string) : option muxEntry :=
  match m mux !! path with
  | Some v => Some v
  | None => head (filter (λ e, HasPrefix path (pattern e) = true) (es mux))
  end.

(** [mux.handler(host, path)]; [None] stands for the [NotFoundHandler]. *)
Definition handler (mux : ServeMux) (host path : string) : option muxEntry :=
  match (if hosts mux then match_ mux (host +:+ path) else None) with
  | Some e => Some e
  | None => match_ mux path
  end.

Definition shouldRedirectRLocked (mux : ServeMux) (host path : string) : bool :=
  if bool_decide (is_Some (m mux !! path)) || bool_decide (is_Some (m mux !! (host +:+ path)))
  then false
  else if bool_decide (path = "") then false
  else if bool_decide (is_Some (m mux !! (path +:+ "/")))
          || bool_decide (is_Some (m mux !! (host +:+ path +:+ "/")))
  then negb (ends_in_slash path)
  else false.

(** [path.Clean] on a rooted path: empty and [.] elements go, a [..]
    element takes the element before it with it, and none climbs above the
    root. *)
Fixpoint clean_elems (kept elems : list string) : list string :=
  match elems with
  | [] => kept
  | e :: rest =>
      if bool_decide (e = "") || bool_decide (e = ".") then clean_elems kept rest
      else if bool_decide (e = "..") then clean_elems (removelast kept) rest
      else clean_elems (kept ++ [e]) rest
  end.

Definition Clean (path : string) : string :=
  "/" +:+ join "/" (clean_elems [] (url.split 47 path)).

(** [cleanPath]: the canonical form of a request path; a trailing slash is
    kept. *)
Definition cleanPath (p : string) : string :=
  if bool_decide (p = "") then "/"
  else
    let p := if starts_with_slash p then p else "/" +:+ p in
    let np := Clean p in
    if ends_in_slash p && negb (bool_decide (np = "/")) then np +:+ "/" else np.

(** What the mux does with a request: call a handler, answer with a
    redirect (301) to a path with the request's query, or answer 404. *)
Inductive route : Type :=
  | Serve (h : http.Request → Handler unit) (pattern : string)
  | Redirect (path rawQuery : string) (pattern : string)
  | NotFound.

Definition serve_or_404 (e : option muxEntry) : route :=
  match e with
  | Some e => Serve (h e) (pattern e)
  | None => NotFound
  end.

(** [mux.Handler(r)].  [host] is [r.Host] without its port, [rawHost] is
    [r.Host] and [urlHost] is [r.URL.Host]. *)
Definition Handler_ (mux : ServeMux) (host rawHost urlHost : string) (r : http.Request)
  : route :=
  if bool_decide (http.Method r = "CONNECT") then
    if shouldRedirectRLocked mux urlHost (http.Path r)
    then Redirect (http.Path r +:+ "/") (http.RawQuery r) (http.Path r +:+ "/")
    else serve_or_404 (handler mux rawHost (http.Path r))
  else
    let path := cleanPath (http.Path r) in
    if shouldRedirectRLocked mux host path
    then Redirect (path +:+ "/") (http.RawQuery r) (path +:+ "/")
    else if negb (bool_decide (path = http.Path r)) then
      Redirect path (http.RawQuery r)
        (match handler mux host path with Some e => pattern e | None => "" end)
    else serve_or_404 (handler mux host (http.Path r)).

End mux.

(** The registrations of [main], lines 188-191. *)
Definition main_routes F G : option mux.ServeMux :=
  mux ← mux.Handle mux.NewServeMux "/" (handleRequest F G);
  mux.Handle mux "/modelRegistry/" (handleRequest F G).

(** ** Sample runs *)

Definition request (method query : string) (cookies : list http.Cookie) (body : string)
  : http.Request :=
  {| http.Method := method; http.Path := "/"; http.RawQuery := query;
     http.Header_ := ∅; http.Cookies := cookies; http.Body := http.Data body |}.

(** An upstream that answers every call with the given status and body. *)
Definition upstream (code : Z) (body : string) : string → option http.Response :=
  λ _, Some {| http.StatusCode := code; http.RespBody := http.Data body |}.


(** A stand-in for the printing of floats, where it does not matter. *)
Definition literal (lit : string) : string := lit.

(** A stage that passes a value on has left the response writer alone, and
    no stage before the upstream call calls out. *)
Definition quiet {A : Type} (m : Handler A) : Prop :=
  ∀ σ f σ', m σ = (f, σ') →
    calls (trace σ') = calls (trace σ) ∧
    (∀ a, f = Next a → w σ' = w σ).

(** A POST whose body cannot be read to its end. *)
Definition broken_post : http.Request :=
  {| http.Method := "POST"; http.Path := "/"; http.RawQuery := "";
     http.Header_ := ∅; http.Cookies := []; http.Body := http.ReadError |}.

(** An upstream that cannot be reached, and one whose answer breaks off. *)
Definition unreachable : string → option http.Response := λ _, None.

Definition cut_off : string → option http.Response :=
  λ _, Some {| http.StatusCode := 200; http.RespBody := http.ReadError |}.

(** The mux [main] builds. *)
Definition main_mux F G : mux.ServeMux :=
  {| mux.m := <["/modelRegistry/" :=
                  {| mux.h := handleRequest F G; mux.pattern := "/modelRegistry/" |}]>
                (<["/" := {| mux.h := handleRequest F G; mux.pattern := "/" |}]> ∅);
     mux.es := [{| mux.h := handleRequest F G; mux.pattern := "/modelRegistry/" |};
                {| mux.h := handleRequest F G; mux.pattern := "/" |}];
     mux.hosts := false |}.

(** The routing of [main], as a table: where a request for a path goes. *)
Definition routed F G (r : http.Request) : mux.route :=
  let p := mux.cleanPath (http.Path r) in
  let pattern := if HasPrefix p "/modelRegistry/" then "/modelRegistry/" else "/" in
  if bool_decide (p = "/modelRegistry")
  then mux.Redirect "/modelRegistry/" (http.RawQuery r) "/modelRegistry/"
  else if bool_decide (p = http.Path r) then mux.Serve (handleRequest F G) pattern
  else mux.Redirect p (http.RawQuery r) pattern.

Definition set_path (r : http.Request) (path : string) : http.Request :=
  {| http.Method := http.Method r; http.Path := path; http.RawQuery := http.RawQuery r;
     http.Header_ := http.Header_ r; http.Cookies := http.Cookies r;
     http.Body := http.Body r |}.

(** The same request with another query string, and with another body. *)
Definition set_query (r : http.Request) (query : string) : http.Request :=
  {| http.Method := http.Method r; http.Path := http.Path r; http.RawQuery := query;
     http.Header_ := http.Header_ r; http.Cookies := http.Cookies r;
     http.Body := http.Body r |}.

Definition set_body (r : http.Request) (body : http.body) : http.Request :=
  {| http.Method := http.Method r; http.Path := http.Path r;
     http.RawQuery := http.RawQuery r; http.Header_ := http.Header_ r;
     http.Cookies := http.Cookies r; http.Body := body |}.

(** The three keys lines 72-101 write. *)
Definition reserved (key : string) : Prop :=
  key = "oauth2_proxy_kubeflow" ∨ key = "kubeflow-userid"
  ∨ key = "x-forwarded-access-token".

(** How often a byte occurs in a text; and [strings.Contains] as a
    proposition. *)
Fixpoint CountByte (s : string) (b : N) : nat :=
  match s with
  | "" => 0%nat
  | String c s' => ((if (byte c =? b)%N then 1 else 0) + CountByte s' b)%nat
  end.

Definition Contains (s substr : string) : Prop :=
  ∃ before after, s = before +:+ substr +:+ after.

(** A POST body that is a JSON object with a number no float64 holds. *)
Definition huge_number_body : string := "{" +:+ quote +:+ "n" +:+ quote +:+ ": 1e999}".

(** ** Proof steps *)

(** An element is none of those of a list written out. *)
Ltac not_in_list H :=
  repeat (apply elem_of_cons in H as [H|H]; [by repeat case_match|]);
  by apply elem_of_nil in H.

(** Unfolding the steps of a handler, and running it through every case. *)
Ltac unfold_handler :=
  unfold assign, http_Error, Header_Set, Write, emit, return_, panic,
    mbind, mret, Handler_bind, Handler_ret in *.

Ltac run_handler := unfold_handler; repeat case_match; simplify_eq/=.

(** Membership in a list written out. *)
Ltac in_list := by repeat first [apply list_elem_of_here | apply list_elem_of_further].

(** Closing a goal about the scanner's budget. *)
Ltac budget := split; [done | intros; simplify_eq; cbn in *; lia].

(** * Properties *)

(** ** The scanner's budget *)

Local Open Scope nat_scope.

Lemma skip_space_length (s : string) :
  String.length (json.skip_space s) ≤ String.length s.
Proof. induction s as [|c s IH]; cbn; [done|]. destruct (json.isSpace c); cbn; lia. Qed.

Lemma span_digits_length (s ds r : string) :
  span_digits s = (ds, r) → String.length r ≤ String.length s.
Proof.
  revert ds r. induction s as [|c s IH]; intros ds r H; cbn in H; [by simplify_eq|].
  destruct (isDigit c); [|by simplify_eq].
  destruct (span_digits s) as [ds' r'] eqn:E. simplify_eq. specialize (IH _ _ eq_refl).
  cbn. lia.
Qed.

Lemma scan_int_length (s i r : string) :
  json.scan_int s = Some (i, r) → String.length r < String.length s.
Proof.
  unfold json.scan_int. destruct s as [|c s]; [done|].
  destruct (byte c =? 48)%N; [intros; simplify_eq; cbn; lia|].
  destruct (between 49 57 c); [|done].
  destruct (span_digits s) as [ds r'] eqn:E. intros; simplify_eq.
  apply span_digits_length in E. cbn. lia.
Qed.

Lemma scan_frac_length (s f r : string) :
  json.scan_frac s = Some (f, r) → String.length r ≤ String.length s.
Proof.
  unfold json.scan_frac. destruct s as [|c s]; [by intros; simplify_eq|].
  destruct (byte c =? 46)%N; [|by intros; simplify_eq].
  destruct (span_digits s) as [ds r'] eqn:E. apply span_digits_length in E.
  destruct ds; intros; simplify_eq. cbn. lia.
Qed.

Lemma scan_exp_length (s e r : string) :
  json.scan_exp s = Some (e, r) → String.length r ≤ String.length s.
Proof.
  unfold json.scan_exp. destruct s as [|c s]; [by intros; simplify_eq|].
  destruct (_ || _); [|by intros; simplify_eq].
  destruct s as [|d t].
  - cbn. done.
  - destruct ((byte d =? 43)%N || (byte d =? 45)%N).
    + destruct (span_digits t) as [ds r'] eqn:E. apply span_digits_length in E.
      destruct ds; intros; simplify_eq. cbn. lia.
    + destruct (span_digits (String d t)) as [ds r'] eqn:E. apply span_digits_length in E.
      destruct ds; intros; simplify_eq. cbn in *. lia.
Qed.

Lemma scan_number_length (s lit r : string) :
  json.scan_number s = Some (lit, r) → String.length r < String.length s.
Proof.
  unfold json.scan_number. intros H.
  destruct s as [|c s']; [done|].
  destruct (byte c =? 45)%N.
  - destruct (json.scan_int s') as [[i s1]|] eqn:Ei; [|done]. cbn in H.
    destruct (json.scan_frac s1) as [[f s2]|] eqn:Ef; [|done]. cbn in H.
    destruct (json.scan_exp s2) as [[e s3]|] eqn:Ee; [|done]. cbn in H. simplify_eq.
    apply scan_int_length in Ei. apply scan_frac_length in Ef. apply scan_exp_length in Ee.
    cbn. lia.
  - destruct (json.scan_int (String c s')) as [[i s1]|] eqn:Ei; [|done]. cbn in H.
    destruct (json.scan_frac s1) as [[f s2]|] eqn:Ef; [|done]. cbn in H.
    destruct (json.scan_exp s2) as [[e s3]|] eqn:Ee; [|done]. cbn in H. simplify_eq.
    apply scan_int_length in Ei. apply scan_frac_length in Ef. apply scan_exp_length in Ee.
    cbn in *. lia.
Qed.

Lemma scan_string_length (s raw r : string) :
  json.scan_string s = Some (raw, r) → String.length r < String.length s.
Proof.
  remember (String.length s) as n eqn:Hn.
  revert s raw r Hn. induction (lt_wf n) as [n _ IH]. intros s raw r -> H.
  destruct s as [|c s']; [done|]. cbn [json.scan_string] in H.
  destruct (byte c =? 34)%N; [simplify_eq; cbn; lia|].
  destruct (byte c =? 92)%N.
  - destruct s' as [|e s'']; [done|].
    destruct (json.simple_escape e).
    + destruct (json.scan_string s'') as [[raw' r']|] eqn:E; [|done]. cbn in H. simplify_eq.
      specialize (IH (String.length s'') ltac:(cbn; lia) s'' _ _ eq_refl E). cbn. lia.
    + destruct (byte e =? 117)%N; [|done].
      destruct s'' as [|h1 [|h2 [|h3 [|h4 s5]]]]; try done.
      destruct (_ && _); [|done].
      destruct (json.scan_string s5) as [[raw' r']|] eqn:E; [|done]. cbn in H. simplify_eq.
      specialize (IH (String.length s5) ltac:(cbn; lia) s5 _ _ eq_refl E). cbn. lia.
  - destruct (byte c <? 32)%N; [done|].
    destruct (json.scan_string s') as [[raw' r']|] eqn:E; [|done]. cbn in H. simplify_eq.
    specialize (IH (String.length s') ltac:(cbn; lia) s' _ _ eq_refl E). cbn. lia.
Qed.

Lemma after_length (p s r : string) :
  json.after p s = Some r → String.length r + String.length p = String.length s.
Proof.
  revert s. induction p as [|a p IH]; intros [|c s] H; cbn in H; simplify_eq; cbn; try lia.
  destruct (Ascii.eqb a c); [|done]. apply IH in H. lia.
Qed.

Lemma scan_literal_length (lit : string) (v v' : value) (s r : string) :
  lit ≠ "" → json.scan_literal lit v s = json.Scanned v' r →
  String.length r < String.length s.
Proof.
  unfold json.scan_literal. intros Hl H.
  destruct (json.after lit s) eqn:E; simplify_eq.
  apply after_length in E. destruct lit; [done|]. cbn in E. lia.
Qed.

Lemma scan_budget (fuel : nat) :
  (∀ d s, 2 * String.length s < fuel → within_budget (json.scan_value fuel d s) s)
  ∧ (∀ d s acc, 2 * String.length s < fuel →
                within_budget (json.scan_members fuel d s acc) s)
  ∧ (∀ d s acc, 2 * String.length s + 1 < fuel →
                within_budget (json.scan_elems fuel d s acc) s).
Proof.
  induction fuel as [|fuel (IHv & IHm & IHe)]; [split_and!; intros; lia|].
  split_and!.
  - intros d [|c s'] Hf; cbn [json.scan_value]; [budget|]. cbn in Hf.
    pose proof (skip_space_length s') as Hsp.
    destruct (byte c =? 123)%N.
    { destruct (_ <? _)%N; [budget|].
      destruct (json.skip_space s') as [|c1 s1] eqn:E; [budget|].
      destruct (byte c1 =? 125)%N; [budget|].
      destruct (IHm (d + 1)%N (String c1 s1) [] ltac:(cbn in *; lia)) as [H1 H2].
      split; [done|]. intros v r Hr. specialize (H2 _ _ Hr). cbn in *. lia. }
    destruct (byte c =? 91)%N.
    { destruct (_ <? _)%N; [budget|].
      destruct (json.skip_space s') as [|c1 s1] eqn:E; [budget|].
      destruct (byte c1 =? 93)%N; [budget|].
      destruct (IHe (d + 1)%N (String c1 s1) [] ltac:(cbn in *; lia)) as [H1 H2].
      split; [done|]. intros v r Hr. specialize (H2 _ _ Hr). cbn in *. lia. }
    destruct (byte c =? 34)%N.
    { destruct (json.scan_string s') as [[raw r']|] eqn:E; [|budget].
      apply scan_string_length in E. budget. }
    destruct (byte c =? 116)%N.
    { split; [unfold json.scan_literal; by case_match|].
      intros v r Hr. by apply scan_literal_length in Hr. }
    destruct (byte c =? 102)%N.
    { split; [unfold json.scan_literal; by case_match|].
      intros v r Hr. by apply scan_literal_length in Hr. }
    destruct (byte c =? 110)%N.
    { split; [unfold json.scan_literal; by case_match|].
      intros v r Hr. by apply scan_literal_length in Hr. }
    destruct (_ || _); [|budget].
    destruct (json.scan_number (String c s')) as [[lit r']|] eqn:E; [|budget].
    apply scan_number_length in E. budget.
  - intros d [|c s'] acc Hf; cbn [json.scan_members]; [budget|]. cbn in Hf.
    destruct (byte c =? 34)%N; [|budget].
    destruct (json.scan_string s') as [[raw r1]|] eqn:E; [|budget].
    apply scan_string_length in E.
    pose proof (skip_space_length r1) as Hsp1.
    destruct (json.skip_space r1) as [|c2 r2] eqn:E1; [budget|].
    destruct (byte c2 =? 58)%N; [|budget].
    pose proof (skip_space_length r2) as Hsp2.
    destruct (IHv d (json.skip_space r2) ltac:(cbn in *; lia)) as [H1 H2].
    destruct (json.scan_value fuel d (json.skip_space r2)) as [v r3| |] eqn:Ev; [|budget|done].
    specialize (H2 _ _ eq_refl).
    pose proof (skip_space_length r3) as Hsp3.
    destruct (json.skip_space r3) as [|c4 r4] eqn:E3; [budget|].
    destruct (byte c4 =? 44)%N.
    { pose proof (skip_space_length r4) as Hsp4.
      destruct (IHm d (json.skip_space r4) (acc ++ [(json.unquote 0 raw, v)])
                  ltac:(cbn in *; lia)) as [H3 H4].
      split; [done|]. intros v' r Hr. specialize (H4 _ _ Hr). cbn in *. lia. }
    destruct (byte c4 =? 125)%N; budget.
  - intros d s acc Hf; cbn [json.scan_elems].
    destruct (IHv d s ltac:(lia)) as [H1 H2].
    destruct (json.scan_value fuel d s) as [v r| |] eqn:Ev; [|budget|done].
    specialize (H2 _ _ eq_refl).
    pose proof (skip_space_length r) as Hsp.
    destruct (json.skip_space r) as [|c r'] eqn:E; [budget|].
    destruct (byte c =? 44)%N.
    { pose proof (skip_space_length r') as Hsp'.
      destruct (IHe d (json.skip_space r') (acc ++ [v]) ltac:(cbn in *; lia)) as [H3 H4].
      split; [done|]. intros v' r0 Hr. specialize (H4 _ _ Hr). cbn in *. lia. }
    destruct (byte c =? 93)%N; budget.
Qed.

(** The budget [scan] gives is enough: it never reports a syntax error for
    want of budget. *)
Lemma scan_fuel_enough (data : string) : json.scan data ≠ json.OutOfFuel.
Proof.
  unfold json.scan.
  pose proof (skip_space_length data) as Hsp.
  destruct (scan_budget (S (2 * String.length data))) as (Hv & _ & _).
  destruct (Hv 0%N (json.skip_space data) ltac:(lia)) as [H _].
  destruct (json.scan_value _ _ _); [by case_match|done..].
Qed.

Local Close Scope nat_scope.

(** ** The scanner on sample texts *)

Example scan_nested_object :
  json.scan ("{" +:+ quote +:+ "a" +:+ quote +:+ ": [1, -2.5e3, true, null, {}] }")
  = json.Scanned
      (Map [("a", Slice [Float64 "1"; Float64 "-2.5e3"; Bool true; Nil; Map []])]) "".
Proof. reflexivity. Qed.

Example scan_escapes :
  json.scan (quote +:+ "a\nA\/" +:+ quote)
  = json.Scanned (Str ("a" +:+ str1 10 +:+ "A/")) "".
Proof. reflexivity. Qed.

Example scan_rejects :
  json.scan "{'a': 1}" = json.Invalid
  ∧ json.scan "[1, 2,]" = json.Invalid
  ∧ json.scan "01" = json.Invalid
  ∧ json.scan "{} {}" = json.Invalid
  ∧ json.scan "" = json.Invalid.
Proof. by split_and!. Qed.

Example Unmarshal_samples :
  json.Unmarshal "[1, 2]" None = inl json.UnmarshalTypeError
  ∧ json.Unmarshal "7" None = inl json.UnmarshalTypeError
  ∧ json.Unmarshal "{" None = inl json.SyntaxError
  ∧ json.Unmarshal (quote +:+ "text" +:+ quote) None = inl json.UnmarshalTypeError
  ∧ json.Unmarshal ("{" +:+ quote +:+ "n" +:+ quote +:+ ": 1e999}") None
    = inl json.UnmarshalTypeError
  ∧ json.Unmarshal " null " None = inr None
  ∧ json.Unmarshal "{}" None = inr (Some ∅).
Proof. by split_and!; vm_compute. Qed.

(** ** The response writer *)

Lemma append_nonempty (a b : string) : b ≠ "" → a +:+ b ≠ "".
Proof. destruct a; simpl; [done | discriminate]. Qed.

Lemma Error_final (w : http.ResponseWriter) (msg : string) (code : Z) :
  http.wroteHeader w = false → (200 ≤ code ≤ 999)%Z →
  http.Error w msg code = Some (error_reply w msg code).
Proof.
  intros Hw Hc. unfold http.Error, http.WriteHeader, http.Error_headers, http.setHeader; cbn.
  rewrite Hw.
  replace ((code <? 100)%Z || (999 <? code)%Z) with false
    by (symmetry; apply orb_false_intro; [apply Z.ltb_ge | apply Z.ltb_ge]; lia).
  replace ((code <=? 199)%Z) with false by (symmetry; apply Z.leb_gt; lia).
  cbn. unfold http.Write; cbn.
  rewrite bool_decide_eq_false_2 by (apply append_nonempty; discriminate).
  unfold error_reply, error_body.
  destruct (http.bodyAllowedForStatus code); cbn; [|done].
  by destruct (bool_decide (http.reqMethod w = "HEAD")).
Qed.

Lemma Error_invalid_code (w : http.ResponseWriter) (msg : string) (code : Z) :
  http.wroteHeader w = false → (code < 100 ∨ 999 < code)%Z →
  http.Error w msg code = None.
Proof.
  intros Hw Hc. unfold http.Error, http.WriteHeader, http.Error_headers, http.setHeader; cbn.
  rewrite Hw.
  replace ((code <? 100)%Z || (999 <? code)%Z) with true; [done|].
  symmetry. apply orb_true_iff. destruct Hc; [left; apply Z.ltb_lt | right; apply Z.ltb_lt]; lia.
Qed.

(** ** The stages of the handler *)

Lemma calls_app (t t' : list event) : calls (t ++ t') = calls t ++ calls t'.
Proof. unfold calls. by rewrite omap_app. Qed.

Lemma quiet_read_params (r : http.Request) : quiet (read_params r).
Proof.
  intros σ f σ' H. unfold read_params in H.
  run_handler; rewrite ?calls_app, ?app_nil_r. all: split; done.
Qed.

Lemma quiet_assign m key v : quiet (assign m key v).
Proof. intros σ f σ' H. run_handler; split; done. Qed.

Lemma quiet_read_cookie (r : http.Request) params : quiet (read_cookie r params).
Proof.
  intros σ f σ' H. unfold read_cookie in H.
  run_handler; split; done.
Qed.

Lemma quiet_read_header (r : http.Request) name params : quiet (read_header r name params).
Proof.
  intros σ f σ' H. unfold read_header in H.
  run_handler; split; done.
Qed.

Lemma quiet_bind {A B : Type} (m : Handler A) (k : A → Handler B) :
  quiet m → (∀ a, quiet (k a)) → quiet (m ≫= k).
Proof.
  intros Hm Hk σ f σ' H. unfold mbind, Handler_bind in H.
  destruct (m σ) as [[a| |msg] σ1] eqn:E; destruct (Hm _ _ _ E) as [Hc Hw].
  - destruct (Hk a _ _ _ H) as [Hc' Hw']. split; [congruence|].
    intros b ->. rewrite (Hw' b eq_refl). by apply (Hw a).
  - simplify_eq. split; [done | discriminate].
  - simplify_eq. split; [done | discriminate].
Qed.

Lemma handleRequest_collect F G (r : http.Request) (σ : World) :
  handleRequest F G r σ
  = (params ← collect r; data ← call_model_registry G; render F params data) σ.
Proof.
  unfold handleRequest, collect, mbind, Handler_bind.
  repeat case_match; unfold return_ in *; simplify_eq/=; congruence.
Qed.

(** What [params] holds after lines 72-101. *)
Lemma auth_steps (r : http.Request) (m : gmap string value) (σ : World) :
  (params ← read_cookie r (Some m);
   params ← read_header r "kubeflow-userid" params;
   read_header r "x-forwarded-access-token" params) σ
  = (Next (Some (with_auth r m)), σ).
Proof.
  unfold with_auth, with_header, with_cookie, read_cookie, read_header,
    http.Request_Cookie.
  destruct (filter _ (http.Cookies r)); unfold_handler; cbn;
    repeat case_match; simplify_eq/=; done.
Qed.

Lemma auth_steps_nil (r : http.Request) (σ : World) :
  (params ← read_cookie r None;
   params ← read_header r "kubeflow-userid" params;
   read_header r "x-forwarded-access-token" params) σ
  = (Panic "assignment to entry in nil map", σ).
Proof.
  unfold read_cookie, read_header, http.Request_Cookie.
  destruct (filter _ (http.Cookies r)); unfold_handler; done.
Qed.

Lemma quiet_params_steps (r : http.Request) :
  quiet (params ← read_params r;
         params ← read_cookie r params;
         params ← read_header r "kubeflow-userid" params;
         read_header r "x-forwarded-access-token" params).
Proof.
  repeat (apply quiet_bind; [|intros ?]);
    auto using quiet_read_params, quiet_read_cookie, quiet_read_header.
Qed.

Lemma method_check (r : http.Request) :
  negb (bool_decide (http.Method r = http.MethodGet))
  && negb (bool_decide (http.Method r = http.MethodPost)) = false ↔ allowed r.
Proof.
  unfold allowed. do 2 case_bool_decide; cbn; split; intros; try done; tauto.
Qed.

(** A run of [collect] makes no call; when it passes [params] on, the method
    is GET or POST and nothing was written: the writer holds the two frame
    headers only. *)
Lemma collect_fresh (r : http.Request) f σ1 :
  collect r (fresh r) = (f, σ1) →
  calls (trace σ1) = [] ∧
  (∀ params, f = Next params → allowed r ∧ w σ1 = framed r).
Proof.
  unfold collect. intros H.
  unfold mbind at 1 2, Handler_bind at 1 2, Header_Set at 1 2 in H. cbn [w trace] in H.
  fold (framed r) in H.
  destruct (negb _ && negb _) eqn:Hm.
  - run_handler; split; done.
  - apply method_check in Hm.
    destruct (quiet_params_steps r _ _ _ H) as [Hc Hw]. split; [done|].
    intros params ->. split; [done|]. by rewrite (Hw _ eq_refl).
Qed.

Lemma collect_not_allowed (r : http.Request) :
  ¬ allowed r →
  collect r (fresh r)
  = (Return, {| w := error_reply (framed r) "Method not allowed" 405; trace := [] |}).
Proof.
  intros Hm. unfold collect.
  unfold mbind at 1 2, Handler_bind at 1 2, Header_Set at 1 2. cbn [w trace].
  fold (framed r).
  destruct (negb _ && negb _) eqn:E; [|by apply method_check in E].
  unfold http_Error, mbind, Handler_bind, return_; cbn [w trace].
  by rewrite Error_final by (done || cbn; lia).
Qed.

(** [collect] on an allowed method, from what [read_params] does. *)
Lemma collect_allowed (r : http.Request) :
  allowed r →
  collect r (fresh r)
  = (params ← read_params r;
     params ← read_cookie r params;
     params ← read_header r "kubeflow-userid" params;
     read_header r "x-forwarded-access-token" params)
      {| w := framed r; trace := [] |}.
Proof.
  intros Hm. unfold collect.
  unfold mbind at 1 2, Handler_bind at 1 2, Header_Set at 1 2. cbn [w trace].
  fold (framed r).
  by destruct (negb _ && negb _) eqn:E; [apply not_false_iff_true in E; rewrite method_check in E|].
Qed.

(** ** The upstream call *)

Lemma call_error_status G (σ : World) (resp : http.Response) :
  G modelRegistryURL = Some resp →
  http.StatusCode resp ≠ http.StatusOK →
  http.wroteHeader (w σ) = false →
  (200 ≤ http.StatusCode resp ≤ 999)%Z →
  call_model_registry G σ
  = (Return, {| w := error_reply (w σ) "Model registry service error" (http.StatusCode resp);
                trace := trace σ ++ [HttpGet modelRegistryURL] |}).
Proof.
  intros HG Hs Hw Hc. unfold call_model_registry.
  unfold mbind at 1, Handler_bind at 1, emit. rewrite HG.
  apply Z.eqb_neq in Hs. rewrite Hs. cbn [negb].
  unfold http_Error, mbind, Handler_bind, return_; cbn [w trace].
  by rewrite Error_final.
Qed.

Lemma call_invalid_status G (σ : World) (resp : http.Response) :
  G modelRegistryURL = Some resp →
  http.wroteHeader (w σ) = false →
  (http.StatusCode resp < 100)%Z →
  call_model_registry G σ
  = (Panic "invalid WriteHeader code",
     {| w := http.Error_headers (w σ); trace := trace σ ++ [HttpGet modelRegistryURL] |}).
Proof.
  intros HG Hw Hc. unfold call_model_registry.
  unfold mbind at 1, Handler_bind at 1, emit. rewrite HG.
  replace (http.StatusCode resp =? http.StatusOK)%Z with false
    by (symmetry; apply Z.eqb_neq; unfold http.StatusOK; lia).
  cbn [negb].
  unfold http_Error, mbind, Handler_bind, return_; cbn [w trace].
  by rewrite Error_invalid_code by (done || lia).
Qed.

Lemma call_bad_json G (σ : World) (resp : http.Response) (body : string) err :
  G modelRegistryURL = Some resp →
  http.StatusCode resp = http.StatusOK →
  http.RespBody resp = http.Data body →
  json.Unmarshal body None = inl err →
  http.wroteHeader (w σ) = false →
  call_model_registry G σ
  = (Return, {| w := error_reply (w σ) "Invalid JSON from model registry service" 400;
                trace := trace σ ++ [HttpGet modelRegistryURL] |}).
Proof.
  intros HG Hs Hb Hj Hw. unfold call_model_registry.
  unfold mbind at 1, Handler_bind at 1, emit. rewrite HG, Hs, Z.eqb_refl, Hb, Hj. cbn [negb].
  unfold http_Error, mbind, Handler_bind, return_; cbn [w trace].
  by rewrite Error_final by (done || cbn; lia).
Qed.

Lemma call_decoded G (σ : World) (resp : http.Response) (body : string) data :
  G modelRegistryURL = Some resp →
  http.StatusCode resp = http.StatusOK →
  http.RespBody resp = http.Data body →
  json.Unmarshal body None = inr data →
  call_model_registry G σ
  = (Next data, {| w := w σ; trace := trace σ ++ [HttpGet modelRegistryURL] |}).
Proof.
  intros HG Hs Hb Hj. unfold call_model_registry.
  unfold mbind at 1, Handler_bind at 1, emit. by rewrite HG, Hs, Z.eqb_refl, Hb, Hj.
Qed.

(** ** What [json.Unmarshal] accepts *)

Lemma scan_rest (data : string) v rest : json.scan data = json.Scanned v rest → rest = "".
Proof. unfold json.scan. intros H. repeat case_match; by simplify_eq. Qed.

Lemma Unmarshal_rejects (data : string) v :
  ¬ json_object data → ¬ json_null data → ∃ err, json.Unmarshal data v = inl err.
Proof.
  unfold json_object, json_null, json.Unmarshal. intros Ho Hn.
  destruct (json.scan data) as [x rest| |] eqn:E; [|eauto..].
  pose proof (scan_rest _ _ _ E) as ->.
  destruct x; eauto; [done|]. destruct Ho; eauto.
Qed.

Lemma Unmarshal_accepts (data : string) v m :
  json.Unmarshal data v = inr (Some m) → json_object data.
Proof.
  unfold json_object, json.Unmarshal. intros H.
  destruct (json.scan data) as [x rest| |] eqn:E; [|done..].
  pose proof (scan_rest _ _ _ E) as ->. destruct x; simplify_eq; eauto.
Qed.

Lemma Unmarshal_null v : json.Unmarshal "null" v = inr None.
Proof. reflexivity. Qed.

(** ** Runs that reach the upstream call *)

Lemma serve_unfold F G (r : http.Request) :
  serve F G r
  = (params ← collect r; data ← call_model_registry G; render F params data) (fresh r).
Proof. apply handleRequest_collect. Qed.

Lemma quiet_render F params data (σ : World) :
  calls (trace (render F params data σ).2) = calls (trace σ).
Proof. unfold render. unfold_handler. cbn. by rewrite calls_app, app_nil_r. Qed.

Lemma serve_called F G (r : http.Request) :
  modelRegistryURL ∈ calls (trace (serve F G r).2) →
  ∃ params σ1,
    collect r (fresh r) = (Next params, σ1) ∧ allowed r ∧ w σ1 = framed r ∧
    serve F G r = (data ← call_model_registry G; render F params data) σ1.
Proof.
  rewrite serve_unfold. unfold mbind at 1, Handler_bind at 1.
  destruct (collect r (fresh r)) as [[params| |msg] σ1] eqn:E;
    destruct (collect_fresh _ _ _ E) as [Hc Hn]; cbn [snd].
  - intros _. destruct (Hn _ eq_refl). eexists _, _. split_and!; try done.
    unfold mbind at 1, Handler_bind at 1. by rewrite E.
  - rewrite Hc. by intros ?%elem_of_nil.
  - rewrite Hc. by intros ?%elem_of_nil.
Qed.

Lemma framed_unsent (r : http.Request) : http.wroteHeader (framed r) = false.
Proof. reflexivity. Qed.

Lemma allowed_not_HEAD (r : http.Request) :
  allowed r → bool_decide (http.reqMethod (framed r) = "HEAD") = false.
Proof. intros [H|H]; apply bool_decide_eq_false_2; cbn; rewrite H; discriminate. Qed.

(** ** [read_params] case by case *)

Lemma nonempty_length (body : string) : body ≠ "" → (0 <? String.length body)%nat = true.
Proof. by destruct body. Qed.

Lemma read_params_post_rejected (r : http.Request) (body : string) err (σ : World) :
  http.Method r = "POST" → http.Body r = http.Data body → body ≠ "" →
  json.Unmarshal body None = inl err →
  http.wroteHeader (w σ) = false →
  read_params r σ
  = (Return, {| w := error_reply (w σ) "Invalid JSON in request body" 400;
                trace := trace σ ++ [ReadBody] |}).
Proof.
  intros Hm Hb Hne Hj Hw. unfold read_params.
  rewrite bool_decide_eq_true_2 by done.
  unfold mbind at 1, Handler_bind at 1, emit.
  rewrite Hb, nonempty_length, Hj by done.
  unfold http_Error, mbind, Handler_bind, return_; cbn [w trace].
  by rewrite Error_final by (done || cbn; lia).
Qed.

Lemma read_params_post_decoded (r : http.Request) (body : string) params (σ : World) :
  http.Method r = "POST" → http.Body r = http.Data body → body ≠ "" →
  json.Unmarshal body None = inr params →
  read_params r σ = (Next params, {| w := w σ; trace := trace σ ++ [ReadBody] |}).
Proof.
  intros Hm Hb Hne Hj. unfold read_params.
  rewrite bool_decide_eq_true_2 by done.
  unfold mbind at 1, Handler_bind at 1, emit.
  by rewrite Hb, nonempty_length, Hj by done.
Qed.

Lemma read_params_post_empty (r : http.Request) (σ : World) :
  http.Method r = "POST" → http.Body r = http.Data "" →
  read_params r σ = (Next (Some ∅), {| w := w σ; trace := trace σ ++ [ReadBody] |}).
Proof.
  intros Hm Hb. unfold read_params.
  rewrite bool_decide_eq_true_2 by done.
  unfold mbind at 1, Handler_bind at 1, emit. by rewrite Hb.
Qed.

Lemma read_params_get (r : http.Request) (σ : World) :
  http.Method r = "GET" →
  read_params r σ
  = (Next (Some (form_params (url.ParseQuery (http.RawQuery r)))),
     {| w := w σ; trace := trace σ ++ [ParseForm] |}).
Proof.
  intros Hm. unfold read_params.
  rewrite bool_decide_eq_false_2 by (rewrite Hm; discriminate).
  by rewrite bool_decide_eq_true_2 by done.
Qed.

(** A POST whose body is the JSON literal [null] leaves [params] nil, and
    the first assignment to it panics before anything is written. *)
Lemma post_null_panics F G (r : http.Request) :
  http.Method r = "POST" → http.Body r = http.Data "null" →
  serve F G r
  = (Panic "assignment to entry in nil map", {| w := framed r; trace := [ReadBody] |}).
Proof.
  intros Hm Hb. rewrite serve_unfold.
  unfold mbind at 1, Handler_bind at 1.
  rewrite collect_allowed by (by right).
  unfold mbind at 1, Handler_bind at 1.
  rewrite (read_params_post_decoded r "null" None) by done.
  by rewrite auth_steps_nil.
Qed.

(** * The properties of the specification *)

(** ** C2: the upstream body is not JSON *)

(** C2, as the code has it: when the upstream call answers 200 with a body
    that is neither a JSON object nor the JSON literal [null], the handler
    answers 400 with the message "Invalid JSON from model registry
    service". *)
Theorem registry_body_rejected F G (r : http.Request) (resp : http.Response) (body : string) :
  modelRegistryURL ∈ calls (trace (serve F G r).2) →
  G modelRegistryURL = Some resp →
  http.StatusCode resp = 200%Z →
  http.RespBody resp = http.Data body →
  ¬ json_object body →
  ¬ json_null body →
  (serve F G r).1 = Return
  ∧ responded (serve F G r) = true
  ∧ status_of (serve F G r) = 400%Z
  ∧ body_of (serve F G r) = error_body "Invalid JSON from model registry service".
Proof.
  intros Hcall HG Hs Hb Ho Hn.
  destruct (serve_called _ _ _ Hcall) as (params & σ1 & _ & Hm & Hw & ->).
  destruct (Unmarshal_rejects body None Ho Hn) as [err Hj].
  unfold mbind, Handler_bind.
  rewrite (call_bad_json G σ1 resp body err) by (done || by rewrite Hw).
  unfold responded, status_of, body_of, error_reply; cbn.
  rewrite Hw, allowed_not_HEAD by done. done.
Qed.

Lemma registry_body_rejected_witness :
  status_of (serve literal (upstream 200 "[1, 2]") (request "GET" "" [] "")) = 400%Z
  ∧ body_of (serve literal (upstream 200 "[1, 2]") (request "GET" "" [] ""))
    = error_body "Invalid JSON from model registry service".
Proof.
  destruct (registry_body_rejected literal (upstream 200 "[1, 2]") (request "GET" "" [] "")
              {| http.StatusCode := 200; http.RespBody := http.Data "[1, 2]" |} "[1, 2]")
    as (_ & _ & Hs & Hb).
  - apply (bool_decide_unpack _). vm_compute. exact I.
  - reflexivity.
  - reflexivity.
  - reflexivity.
  - intros [members H]. vm_compute in H. discriminate.
  - intros H. vm_compute in H. discriminate.
  - split; assumption.
Defined.

(** C2 as stated fails: an upstream body [null] is not a JSON object, yet
    the handler answers 200 with the page. *)
Lemma registry_null_body_served :
  let x := serve literal (upstream 200 "null") (request "GET" "" [] "") in
  modelRegistryURL ∈ calls (trace x.2)
  ∧ ¬ json_object "null"
  ∧ x.1 = Next ()
  ∧ status_of x = 200%Z
  ∧ ¬ (status_of x = 400%Z
       ∧ body_of x = error_body "Invalid JSON from model registry service").
Proof.
  cbv zeta. split_and!.
  - apply (bool_decide_unpack _). vm_compute. exact I.
  - intros [members H]. vm_compute in H. discriminate.
  - vm_compute. reflexivity.
  - vm_compute. reflexivity.
  - intros [H _]. vm_compute in H. discriminate.
Qed.

(** ** C1: the body of a POST is not JSON *)

(** C1, as the code has it: for a POST whose body is read, is not empty and
    is neither a JSON object nor the JSON literal [null], the handler
    answers 400 with the message "Invalid JSON in request body" and makes no
    upstream call. *)
Theorem post_body_rejected F G (r : http.Request) (body : string) :
  http.Method r = "POST" →
  http.Body r = http.Data body →
  body ≠ "" →
  ¬ json_object body →
  ¬ json_null body →
  (serve F G r).1 = Return
  ∧ responded (serve F G r) = true
  ∧ status_of (serve F G r) = 400%Z
  ∧ body_of (serve F G r) = error_body "Invalid JSON in request body"
  ∧ calls (trace (serve F G r).2) = [].
Proof.
  intros Hm Hb Hne Ho Hn.
  destruct (Unmarshal_rejects body None Ho Hn) as [err Hj].
  assert (allowed r) as Ha by (by right).
  assert (serve F G r
          = (Return, {| w := error_reply (framed r) "Invalid JSON in request body" 400;
                        trace := [ReadBody] |})) as ->.
  { rewrite serve_unfold. unfold mbind at 1, Handler_bind at 1.
    rewrite collect_allowed by done.
    unfold mbind at 1, Handler_bind at 1.
    by rewrite (read_params_post_rejected r body err). }
  unfold responded, status_of, body_of, error_reply;
    cbn [fst snd w trace http.wroteHeader http.status http.written].
  by rewrite allowed_not_HEAD.
Qed.

Lemma post_body_rejected_witness :
  status_of (serve literal (upstream 200 "{}") (request "POST" "" [] "{oops")) = 400%Z
  ∧ calls (trace (serve literal (upstream 200 "{}") (request "POST" "" [] "{oops")).2) = [].
Proof.
  destruct (post_body_rejected literal (upstream 200 "{}") (request "POST" "" [] "{oops") "{oops")
    as (_ & _ & Hs & _ & Hc).
  - reflexivity.
  - reflexivity.
  - discriminate.
  - intros [members H]. vm_compute in H. discriminate.
  - intros H. vm_compute in H. discriminate.
  - split; assumption.
Defined.

(** C1 as stated fails: the body [null] is not empty and is not a JSON
    object, yet it is not answered with 400; the handler panics and nothing
    is answered. *)
Lemma post_null_not_rejected :
  let x := serve literal (upstream 200 "{}") (request "POST" "" [] "null") in
  "null" ≠ ""
  ∧ ¬ json_object "null"
  ∧ x.1 = Panic "assignment to entry in nil map"
  ∧ responded x = false
  ∧ ¬ (status_of x = 400%Z ∧ body_of x = error_body "Invalid JSON in request body").
Proof.
  cbv zeta. rewrite post_null_panics by done. split_and!.
  - discriminate.
  - intros [members H]. vm_compute in H. discriminate.
  - reflexivity.
  - reflexivity.
  - intros [H _]. vm_compute in H. discriminate.
Qed.

(** ** C3 and C6: [params] when the cookie and headers are stored *)

(** C3, at the input where the code fails it: a POST with the body [null]
    is accepted by [json.Unmarshal], [params] stays nil, and the assignment
    of the cookie entry panics; no response is produced. *)
Theorem post_null_nil_params F G (r : http.Request) (σ : World) :
  http.Method r = "POST" →
  http.Body r = http.Data "null" →
  (read_params r σ).1 = Next None
  ∧ (serve F G r).1 = Panic "assignment to entry in nil map"
  ∧ responded (serve F G r) = false.
Proof.
  intros Hm Hb. rewrite post_null_panics by done.
  by rewrite (read_params_post_decoded r "null" None).
Qed.

Lemma post_null_nil_params_witness :
  (serve literal (upstream 200 "{}") (request "POST" "" [] "null")).1
  = Panic "assignment to entry in nil map".
Proof.
  apply (post_null_nil_params literal (upstream 200 "{}") (request "POST" "" [] "null")
           (fresh (request "POST" "" [] "null"))); reflexivity.
Defined.

(** C6, at the input where the code fails it: the request reaches the
    cookie step with the cookie present, and [params] does not hold its
    value afterwards, because the step panics. *)
Theorem post_null_cookie_lost F G :
  let r := request "POST" "" [{| http.Name := "oauth2_proxy_kubeflow"; http.Value := "token" |}]
             "null" in
  http.Request_Cookie r "oauth2_proxy_kubeflow"
  = inr {| http.Name := "oauth2_proxy_kubeflow"; http.Value := "token" |}
  ∧ read_params r (fresh r) = (Next None, {| w := w (fresh r); trace := [ReadBody] |})
  ∧ read_cookie r None {| w := w (fresh r); trace := [ReadBody] |}
    = (Panic "assignment to entry in nil map", {| w := w (fresh r); trace := [ReadBody] |})
  ∧ (serve F G r).1 = Panic "assignment to entry in nil map".
Proof.
  cbv zeta. rewrite post_null_panics by done. done.
Qed.

(** ** C4: an upstream status other than 200 *)

(** C4, as the code has it: when the upstream call answers with a final
    status other than 200 (a code from 201 to 999), the handler answers
    with exactly that status; the body is the message "Model registry
    service error", except that a 204 or 304 answer carries no body.  In
    particular 503 is answered with 503 and the message. *)
Theorem upstream_status_relayed F G (r : http.Request) (resp : http.Response) :
  modelRegistryURL ∈ calls (trace (serve F G r).2) →
  G modelRegistryURL = Some resp →
  (200 < http.StatusCode resp ≤ 999)%Z →
  (serve F G r).1 = Return
  ∧ responded (serve F G r) = true
  ∧ status_of (serve F G r) = http.StatusCode resp
  ∧ body_of (serve F G r)
    = (if (http.StatusCode resp =? 204)%Z || (http.StatusCode resp =? 304)%Z
       then "" else error_body "Model registry service error")
  ∧ (http.StatusCode resp = 503%Z →
     body_of (serve F G r) = error_body "Model registry service error").
Proof.
  intros Hcall HG Hc.
  destruct (serve_called _ _ _ Hcall) as (params & σ1 & _ & Hm & Hw & ->).
  unfold mbind, Handler_bind.
  rewrite (call_error_status G σ1 resp)
    by (done || (by rewrite Hw) || (unfold http.StatusOK; lia)).
  unfold responded, status_of, body_of, error_reply;
    cbn [fst snd w trace http.wroteHeader http.status http.written].
  rewrite Hw, allowed_not_HEAD by done.
  assert (http.bodyAllowedForStatus (http.StatusCode resp)
          = negb ((http.StatusCode resp =? 204)%Z || (http.StatusCode resp =? 304)%Z)) as ->.
  { unfold http.bodyAllowedForStatus.
    replace (http.StatusCode resp <=? 199)%Z with false by (symmetry; apply Z.leb_gt; lia).
    by rewrite andb_false_r. }
  split_and!; try done.
  - by destruct (_ || _).
  - by intros ->.
Qed.

Lemma upstream_status_relayed_witness :
  status_of (serve literal (upstream 503 "down") (request "GET" "" [] "")) = 503%Z
  ∧ body_of (serve literal (upstream 503 "down") (request "GET" "" [] ""))
    = error_body "Model registry service error".
Proof.
  destruct (upstream_status_relayed literal (upstream 503 "down") (request "GET" "" [] "")
              {| http.StatusCode := 503; http.RespBody := http.Data "down" |})
    as (_ & _ & Hs & _ & Hb).
  - apply (bool_decide_unpack _). vm_compute. exact I.
  - reflexivity.
  - cbn. lia.
  - split; [exact Hs | apply Hb; reflexivity].
Defined.

(** C4 as stated fails: an upstream status 204 is relayed, but without the
    message, since a 204 response has no body. *)
Lemma upstream_204_no_body :
  let x := serve literal (upstream 204 "") (request "GET" "" [] "") in
  modelRegistryURL ∈ calls (trace x.2)
  ∧ status_of x = 204%Z
  ∧ body_of x = ""
  ∧ ¬ (status_of x = 204%Z ∧ body_of x = error_body "Model registry service error").
Proof.
  cbv zeta. split_and!.
  - apply (bool_decide_unpack _). vm_compute. exact I.
  - vm_compute. reflexivity.
  - vm_compute. reflexivity.
  - intros [_ H]. vm_compute in H. discriminate.
Qed.

(** A status below 100, which an upstream status line can carry, is not
    relayed at all: [WriteHeader] panics on it. *)
Lemma upstream_status_below_100 F G (r : http.Request) (resp : http.Response) :
  modelRegistryURL ∈ calls (trace (serve F G r).2) →
  G modelRegistryURL = Some resp →
  (http.StatusCode resp < 100)%Z →
  (serve F G r).1 = Panic "invalid WriteHeader code" ∧ responded (serve F G r) = false.
Proof.
  intros Hcall HG Hc.
  destruct (serve_called _ _ _ Hcall) as (params & σ1 & _ & Hm & Hw & ->).
  unfold mbind, Handler_bind.
  rewrite (call_invalid_status G σ1 resp) by (done || by rewrite Hw).
  unfold responded; cbn [fst snd w]. by rewrite Hw.
Qed.

(** ** C9: other methods *)

(** C9: a request whose method is neither GET nor POST is answered with
    status 405 (and the message "Method not allowed", which a HEAD request
    does not get to see), and the handler does nothing else: no body is read,
    no form parsed, no upstream call made, no template executed. *)
Theorem method_not_allowed F G (r : http.Request) :
  http.Method r ≠ "GET" →
  http.Method r ≠ "POST" →
  (serve F G r).1 = Return
  ∧ responded (serve F G r) = true
  ∧ status_of (serve F G r) = 405%Z
  ∧ body_of (serve F G r)
    = (if bool_decide (http.Method r = "HEAD") then "" else error_body "Method not allowed")
  ∧ trace (serve F G r).2 = [].
Proof.
  intros Hg Hp.
  assert (¬ allowed r) as Ha by (by intros [|]).
  rewrite serve_unfold. unfold mbind, Handler_bind.
  rewrite collect_not_allowed by done.
  unfold responded, status_of, body_of, error_reply;
    cbn [fst snd w trace http.wroteHeader http.status http.written].
  split_and!; try done.
  change (http.reqMethod (framed r)) with (http.Method r).
  by case_bool_decide.
Qed.

Lemma method_not_allowed_witness :
  status_of (serve literal (upstream 200 "{}") (request "DELETE" "" [] "")) = 405%Z
  ∧ trace (serve literal (upstream 200 "{}") (request "DELETE" "" [] "")).2 = [].
Proof.
  destruct (method_not_allowed literal (upstream 200 "{}") (request "DELETE" "" [] ""))
    as (_ & _ & Hs & _ & Ht).
  - discriminate.
  - discriminate.
  - split; assumption.
Defined.

(** ** C10: the frame headers *)

Section Keeps.

Variable P : World → Prop.

Lemma keeps_ret {A : Type} (a : A) : keeps P (mret a).
Proof. by intros σ. Qed.

Lemma keeps_return {A : Type} : keeps P (@return_ A).
Proof. by intros σ. Qed.

Lemma keeps_panic {A : Type} msg : keeps P (@panic A msg).
Proof. by intros σ. Qed.

Lemma keeps_bind {A B : Type} (m : Handler A) (k : A → Handler B) :
  keeps P m → (∀ a, keeps P (k a)) → keeps P (m ≫= k).
Proof.
  intros Hm Hk σ Hσ. unfold mbind, Handler_bind.
  specialize (Hm σ Hσ). destruct (m σ) as [[a| |msg] σ1]; cbn in *; [by apply Hk|done..].
Qed.

Lemma keeps_assign m key v : keeps P (assign m key v).
Proof. destruct m; [apply keeps_ret | apply keeps_panic]. Qed.

End Keeps.

Lemma frame_headers_set (h : http.Header) (key v : string) :
  http.CanonicalMIMEHeaderKey key ≠ "X-Frame-Options" →
  http.CanonicalMIMEHeaderKey key ≠ "Content-Security-Policy" →
  frame_headers h → frame_headers (http.Header_Set h key v).
Proof.
  intros H1 H2 [Hx Hc]. unfold http.Header_Set. split; by rewrite lookup_insert_ne.
Qed.

Lemma framing_setHeader (x : http.ResponseWriter) (key v : string) :
  http.CanonicalMIMEHeaderKey key ≠ "X-Frame-Options" →
  http.CanonicalMIMEHeaderKey key ≠ "Content-Security-Policy" →
  framing x → framing (http.setHeader x key v).
Proof.
  intros H1 H2 [Hh Hs]. split; cbn; [by apply frame_headers_set | done].
Qed.

(** A header that is not among the suppressed ones goes out with every
    status. *)
Lemma sent_lookup (h : http.Header) (code : Z) (key : string) :
  key ∉ ["Content-Type"; "Content-Length"; "Transfer-Encoding"] →
  http.sent h code !! key = h !! key.
Proof.
  intros Hk. unfold http.sent, http.suppressedHeaders.
  assert (key ≠ "Content-Type" ∧ key ≠ "Content-Length" ∧ key ≠ "Transfer-Encoding")
    as (H1 & H2 & H3) by (split_and!; intros ->; apply Hk; in_list).
  repeat case_match; cbn [foldr]; by rewrite ?lookup_delete_ne.
Qed.

Lemma frame_headers_sent (h : http.Header) (code : Z) :
  frame_headers h → frame_headers (http.sent h code).
Proof.
  intros [Hx Hc]. split; (rewrite sent_lookup; [done|]).
  all: intros H; by repeat (apply elem_of_cons in H as [?|H]; [done|]);
    apply elem_of_nil in H.
Qed.

Lemma framing_WriteHeader (x x' : http.ResponseWriter) (code : Z) :
  http.WriteHeader x code = Some x' → framing x → framing x'.
Proof.
  unfold http.WriteHeader. intros H [Hh Hs].
  repeat case_match; simplify_eq; split; cbn; auto; try congruence.
  intros _. by apply frame_headers_sent.
Qed.

Lemma framing_Write (x : http.ResponseWriter) (data : string) :
  framing x → framing (http.Write x data).
Proof.
  unfold http.Write. intros [Hh Hs].
  destruct (http.wroteHeader x) eqn:E; repeat case_match; split;
    cbn [http.handlerHeader http.wroteHeader http.sentHeader]; auto;
    intros _; by apply frame_headers_sent.
Qed.

Lemma framing_Error_headers (x : http.ResponseWriter) :
  framing x → framing (http.Error_headers x).
Proof.
  intros H. unfold http.Error_headers.
  apply framing_setHeader; [by vm_compute..|].
  by apply framing_setHeader; [by vm_compute..|].
Qed.

Lemma keeps_emit e : keeps framed_world (emit e).
Proof. by intros σ. Qed.

Lemma keeps_http_Error msg code : keeps framed_world (http_Error msg code).
Proof.
  intros σ H. unfold http_Error, http.Error.
  destruct (http.WriteHeader _ code) as [x'|] eqn:E; cbn.
  - apply framing_Write. eapply framing_WriteHeader; [done|].
    by apply framing_Error_headers.
  - by apply framing_Error_headers.
Qed.

Lemma keeps_Write data : keeps framed_world (Write data).
Proof. intros σ H. by apply framing_Write. Qed.

Lemma keeps_Header_Set key v :
  http.CanonicalMIMEHeaderKey key ≠ "X-Frame-Options" →
  http.CanonicalMIMEHeaderKey key ≠ "Content-Security-Policy" →
  keeps framed_world (Header_Set key v).
Proof. intros H1 H2 σ H. by apply framing_setHeader. Qed.

Create HintDb keeps.
#[local] Hint Resolve keeps_ret keeps_return keeps_panic keeps_assign keeps_emit
  keeps_http_Error keeps_Write : keeps.
#[local] Hint Extern 2 (keeps _ (_ ≫= _)) => apply keeps_bind; [|intros ?] : keeps.
#[local] Hint Extern 2 (keeps _ (match ?x with _ => _ end)) => destruct x : keeps.

Lemma keeps_read_params (r : http.Request) : keeps framed_world (read_params r).
Proof. unfold read_params. auto 12 with keeps. Qed.

Lemma keeps_read_cookie (r : http.Request) params : keeps framed_world (read_cookie r params).
Proof. unfold read_cookie. auto 12 with keeps. Qed.

Lemma keeps_read_header (r : http.Request) name params :
  keeps framed_world (read_header r name params).
Proof. unfold read_header. auto 12 with keeps. Qed.

Lemma keeps_call_model_registry G : keeps framed_world (call_model_registry G).
Proof. unfold call_model_registry. auto 12 with keeps. Qed.

Lemma keeps_render F params data : keeps framed_world (render F params data).
Proof.
  unfold render. apply keeps_bind; [by apply keeps_Header_Set; vm_compute|intros _].
  auto with keeps.
Qed.

Lemma framing_framed (r : http.Request) : framing (framed r).
Proof. split; [|done]. split; by vm_compute. Qed.

#[local] Hint Resolve keeps_read_params keeps_read_cookie keeps_read_header
  keeps_call_model_registry keeps_render : keeps.

Lemma keeps_after_frame F G (r : http.Request) :
  keeps framed_world
    (if negb (bool_decide (http.Method r = http.MethodGet))
        && negb (bool_decide (http.Method r = http.MethodPost))
     then http_Error "Method not allowed" http.StatusMethodNotAllowed;; return_
     else
       params ← read_params r;
       params ← read_cookie r params;
       params ← read_header r "kubeflow-userid" params;
       params ← read_header r "x-forwarded-access-token" params;
       modelRegistryData ← call_model_registry G;
       render F params modelRegistryData).
Proof. destruct (negb _ && negb _); auto 12 with keeps. Qed.

(** C10: whatever the request and however the handler ends, the response
    headers hold [X-Frame-Options: ALLOWALL] and
    [Content-Security-Policy: frame-ancestors *;]. *)
Theorem frame_headers_always F G (r : http.Request) :
  headers_of (serve F G r) !! "X-Frame-Options" = Some ["ALLOWALL"]
  ∧ headers_of (serve F G r) !! "Content-Security-Policy" = Some ["frame-ancestors *;"].
Proof.
  pose proof (keeps_after_frame F G r {| w := framed r; trace := [] |} (framing_framed r))
    as [Hh Hs].
  change (frame_headers (headers_of (serve F G r))).
  unfold headers_of.
  destruct (http.wroteHeader (w (serve F G r).2)) eqn:E; [by apply Hs | exact Hh].
Qed.

(** ** C5: the query of a GET *)

Lemma form_params_lookup (Form : url.Values) (key : string) :
  form_params Form !! key = form_value <$> Form !! key.
Proof.
  unfold form_params. revert key.
  apply (map_fold_weak_ind (λ params Form, ∀ key, params !! key = form_value <$> Form !! key)).
  - intros key. by rewrite !lookup_empty.
  - intros i x m params Hi IH key.
    destruct (decide (i = key)) as [->|Hne].
    + by rewrite !lookup_insert_eq.
    + by rewrite !lookup_insert_ne.
Qed.

Lemma parsePair_lookup (m : url.Values) (piece key : string) :
  url.parsePair m piece !! key
  = match decode_pair piece with
    | Some (k, v) =>
        if bool_decide (k = key) then Some (default [] (m !! key) ++ [v]) else m !! key
    | None => m !! key
    end.
Proof.
  unfold url.parsePair, decode_pair.
  destruct (url.contains 59 piece); [done|].
  destruct (bool_decide (piece = "")); [done|].
  destruct (url.cut 61 piece) as [k v]. cbn.
  destruct (url.QueryUnescape k) as [k'|]; [|done]. cbn.
  destruct (url.QueryUnescape v) as [v'|]; [|done]. cbn.
  case_bool_decide as E.
  - subst. by rewrite lookup_insert_eq.
  - by rewrite lookup_insert_ne.
Qed.

Lemma supplied_by_cons (piece : string) (pieces : list string) (key : string) :
  supplied_by (piece :: pieces) key
  = match decode_pair piece with
    | Some (k, v) =>
        if bool_decide (k = key) then v :: supplied_by pieces key
        else supplied_by pieces key
    | None => supplied_by pieces key
    end.
Proof.
  unfold supplied_by; cbn. destruct (decode_pair piece) as [[k v]|]; [|done].
  by case_bool_decide.
Qed.

(** The loop of [parseQuery] gathers, for each key, the values supplied for
    it, in order. *)
Lemma parseQuery_lookup (pieces : list string) (m : url.Values) (key : string) :
  fold_left url.parsePair pieces m !! key
  = match supplied_by pieces key with
    | [] => m !! key
    | vs => Some (default [] (m !! key) ++ vs)
    end.
Proof.
  revert m. induction pieces as [|piece pieces IH]; intros m; [done|].
  cbn [fold_left]. rewrite IH, parsePair_lookup, supplied_by_cons.
  destruct (decode_pair piece) as [[k v]|]; [|done].
  case_bool_decide; [|done].
  destruct (supplied_by pieces key); [done|].
  cbn [default]. unfold id. by rewrite <-app_assoc.
Qed.

Lemma ParseQuery_lookup (query key : string) :
  url.ParseQuery query !! key
  = match supplied query key with
    | [] => None
    | vs => Some vs
    end.
Proof.
  unfold url.ParseQuery, url.parseQuery, supplied. rewrite parseQuery_lookup.
  by rewrite lookup_empty.
Qed.

(** C5: for a GET, [params] maps a key supplied once to that value, as a
    string, and a key supplied several times to the list of its values in
    order; for the query [a=1&a=2&b=3], [a] maps to the list of 1 and 2 and
    [b] to the string 3. *)
Theorem get_params (r : http.Request) (σ : World) :
  http.Method r = "GET" →
  let params := form_params (url.ParseQuery (http.RawQuery r)) in
  read_params r σ = (Next (Some params), {| w := w σ; trace := trace σ ++ [ParseForm] |})
  ∧ (∀ key v, supplied (http.RawQuery r) key = [v] → params !! key = Some (Str v))
  ∧ (∀ key, (1 < length (supplied (http.RawQuery r) key))%nat →
            params !! key = Some (StrSlice (supplied (http.RawQuery r) key)))
  ∧ (∀ key, supplied (http.RawQuery r) key = [] → params !! key = None)
  ∧ (http.RawQuery r = "a=1&a=2&b=3" →
     params !! "a" = Some (StrSlice ["1"; "2"]) ∧ params !! "b" = Some (Str "3")).
Proof.
  intros Hm params. split_and!.
  - by apply read_params_get.
  - intros key v Hs. unfold params. by rewrite form_params_lookup, ParseQuery_lookup, Hs.
  - intros key Hs. unfold params. rewrite form_params_lookup, ParseQuery_lookup.
    destruct (supplied _ key) as [|v [|v' vs]]; cbn in Hs; [lia..|done].
  - intros key Hs. unfold params. by rewrite form_params_lookup, ParseQuery_lookup, Hs.
  - intros Hq. unfold params. rewrite !form_params_lookup, !ParseQuery_lookup, Hq.
    split; by vm_compute.
Qed.

Lemma get_params_witness :
  form_params (url.ParseQuery "a=1&a=2&b=3") !! "a" = Some (StrSlice ["1"; "2"])
  ∧ form_params (url.ParseQuery "a=1&a=2&b=3") !! "b" = Some (Str "3").
Proof.
  destruct (get_params (request "GET" "a=1&a=2&b=3" [] "")
              (fresh (request "GET" "a=1&a=2&b=3" [] ""))) as (_ & _ & _ & _ & H).
  - reflexivity.
  - apply H. reflexivity.
Defined.

(** ** C7: entries the client supplied under the reserved keys *)

Lemma with_header_lookup (r : http.Request) (name key : string) (m : gmap string value) :
  with_header r name m !! key
  = if bool_decide (key = name) && negb (bool_decide (http.Header_Get (http.Header_ r) name = ""))
    then Some (Str (http.Header_Get (http.Header_ r) name))
    else m !! key.
Proof.
  unfold with_header. do 2 case_bool_decide; subst; cbn;
    by rewrite ?lookup_insert_eq, ?lookup_insert_ne.
Qed.

(** C7: whatever [params] holds after line 70, lines 72-101 set the entry
    of [oauth2_proxy_kubeflow] to the cookie's value, or to nil when there is
    no such cookie, and set the entry of each of the two headers to the
    header's value when that is not empty; the entry of a header that is
    absent or empty stays as the client supplied it. *)
Theorem reserved_keys_overwritten (r : http.Request) (m : gmap string value) (σ : World) :
  (params ← read_cookie r (Some m);
   params ← read_header r "kubeflow-userid" params;
   read_header r "x-forwarded-access-token" params) σ
  = (Next (Some (with_auth r m)), σ)
  ∧ with_auth r m !! "oauth2_proxy_kubeflow"
    = Some (match http.Request_Cookie r "oauth2_proxy_kubeflow" with
            | inr c => Str (http.Value c)
            | inl _ => Nil
            end)
  ∧ (∀ name, name = "kubeflow-userid" ∨ name = "x-forwarded-access-token" →
       with_auth r m !! name
       = if bool_decide (http.Header_Get (http.Header_ r) name = "")
         then m !! name
         else Some (Str (http.Header_Get (http.Header_ r) name))).
Proof.
  split_and!.
  - apply auth_steps.
  - unfold with_auth. rewrite !with_header_lookup. cbn.
    unfold with_cookie. destruct (http.Request_Cookie _ _); by rewrite lookup_insert_eq.
  - assert (∀ name, name ≠ "oauth2_proxy_kubeflow" →
              with_cookie r m !! name = m !! name) as Hc.
    { intros name Hne. unfold with_cookie.
      destruct (http.Request_Cookie _ _); by rewrite lookup_insert_ne. }
    intros name [->| ->]; unfold with_auth; rewrite !with_header_lookup, Hc by done.
    + rewrite (bool_decide_eq_false_2 ("kubeflow-userid" = "x-forwarded-access-token"))
        by discriminate.
      rewrite (bool_decide_eq_true_2 ("kubeflow-userid" = "kubeflow-userid")) by done.
      cbn [andb]. by case_bool_decide.
    + rewrite (bool_decide_eq_true_2 ("x-forwarded-access-token" = "x-forwarded-access-token"))
        by done.
      cbn [andb].
      rewrite (bool_decide_eq_false_2 ("x-forwarded-access-token" = "kubeflow-userid"))
        by discriminate.
      cbn [andb]. by case_bool_decide.
Qed.

(** ** Counting list items in the page *)

Lemma append_cons (c : ascii) (s t : string) : String c s +:+ t = String c (s +:+ t).
Proof. reflexivity. Qed.

Lemma append_assoc (s t u : string) : (s +:+ t) +:+ u = s +:+ (t +:+ u).
Proof. induction s as [|c s IH]; [done|]. by rewrite !append_cons, IH. Qed.










Lemma length_sorted_items {A : Type} (m : gmap string A) :
  length (sorted_items m) = size m.
Proof.
  unfold sorted_items.
  by rewrite (Permutation_length (merge_sort_Permutation _ _)), length_map_to_list.
Qed.


(** ** C8: the page *)

Lemma Execute_nonempty F (data : ParamsData) : Execute F data ≠ "".
Proof. unfold Execute, tmpl_head. discriminate. Qed.

Lemma render_fresh F params data (σ : World) :
  http.wroteHeader (w σ) = false →
  http.reqMethod (w σ) ≠ "HEAD" →
  render F params data σ
  = (Next (),
     {| w := {| http.handlerHeader :=
                  http.Header_Set (http.handlerHeader (w σ)) "Content-Type"
                    "text/html; charset=utf-8";
                http.wroteHeader := true;
                http.status := 200;
                http.sentHeader :=
                  http.Header_Set (http.handlerHeader (w σ)) "Content-Type"
                    "text/html; charset=utf-8";
                http.written :=
                  http.written (w σ)
                  +:+ Execute F {| Params := params; ModelRegistry := data |};
                http.reqMethod := http.reqMethod (w σ) |};
        trace := trace σ ++ [TemplateExecute] |}).
Proof.
  intros Hw Hm. unfold render. unfold_handler. cbn [w trace].
  unfold http.Write, http.setHeader.
  cbn [http.wroteHeader http.handlerHeader http.status http.written http.reqMethod
       http.sentHeader].
  rewrite Hw.
  cbn [http.wroteHeader http.handlerHeader http.status http.written http.reqMethod
       http.sentHeader].
  rewrite bool_decide_eq_false_2 by apply Execute_nonempty.
  rewrite bool_decide_eq_false_2 by done.
  done.
Qed.

Lemma valid_input_allowed (r : http.Request) m : valid_input r m → allowed r.
Proof. intros [[? _]|[[? _]|[? _]]]; [by left|by right..]. Qed.

Lemma read_params_valid (r : http.Request) m (σ : World) :
  valid_input r m →
  ∃ e, read_params r σ = (Next (Some m), {| w := w σ; trace := trace σ ++ [e] |})
       ∧ calls [e] = [].
Proof.
  intros [[Hm ->]|[(Hm & Hb & ->)|(Hm & body & Hb & Hne & Hj)]].
  - exists ParseForm. by rewrite read_params_get.
  - exists ReadBody. by rewrite read_params_post_empty.
  - exists ReadBody. by rewrite (read_params_post_decoded r body (Some m)).
Qed.

(** ** When the handler panics *)

Lemma Unmarshal_nil (data : string) v : json.Unmarshal data v = inr None → json_null data.
Proof.
  unfold json_null, json.Unmarshal. intros H.
  destruct (json.scan data) as [x rest| |] eqn:E; [|done..].
  pose proof (scan_rest _ _ _ E) as ->.
  destruct x; try done. by case_match.
Qed.

Lemma Error_panics (x : http.ResponseWriter) (msg : string) (code : Z) :
  http.wroteHeader x = false → http.Error x msg code = None →
  (code < 100 ∨ 999 < code)%Z.
Proof.
  intros Hw H. destruct (decide (200 ≤ code ≤ 999)%Z) as [Hc|Hc].
  - by rewrite Error_final in H.
  - destruct (decide (code < 100 ∨ 999 < code)%Z) as [|Hn]; [done|].
    unfold http.Error, http.WriteHeader, http.Error_headers, http.setHeader in H.
    cbn in H. rewrite Hw in H.
    replace ((code <? 100)%Z || (999 <? code)%Z) with false in H
      by (symmetry; apply orb_false_intro; apply Z.ltb_ge; lia).
    by destruct ((code <=? 199)%Z && negb (code =? 101)%Z).
Qed.

(** Lines 32-101 panic only on a POST whose body is the JSON literal
    [null]. *)
Lemma collect_panics (r : http.Request) msg σ1 :
  collect r (fresh r) = (Panic msg, σ1) →
  http.Method r = "POST" ∧ ∃ body, http.Body r = http.Data body ∧ json_null body.
Proof.
  destruct (decide (allowed r)) as [Ha|Ha]; [|by rewrite collect_not_allowed].
  rewrite collect_allowed by done.
  unfold mbind at 1, Handler_bind at 1.
  destruct (decide (http.Method r = "POST")) as [Hp|Hp].
  - destruct (http.Body r) as [body|] eqn:Hb.
    + destruct (decide (body = "")) as [->|Hne].
      { rewrite read_params_post_empty by done. by rewrite auth_steps. }
      destruct (json.Unmarshal body None) as [err|[m|]] eqn:Hj.
      * by rewrite (read_params_post_rejected r body err).
      * rewrite (read_params_post_decoded r body (Some m)) by done. by rewrite auth_steps.
      * intros _. split; [done|]. exists body. split; [done|]. by eapply Unmarshal_nil.
    + unfold read_params. rewrite bool_decide_eq_true_2 by done.
      unfold mbind at 1, Handler_bind at 1, emit. rewrite Hb.
      unfold http_Error, mbind, Handler_bind, return_; cbn [w trace].
      by rewrite Error_final by (done || cbn; lia).
  - destruct Ha as [Hg|]; [|done].
    rewrite read_params_get by done. by rewrite auth_steps.
Qed.

(** The handler panics in two cases only: a POST whose body is the JSON
    literal [null], and an upstream status that is not a three-digit code
    from 100 on. *)
Lemma serve_panics F G (r : http.Request) msg :
  (serve F G r).1 = Panic msg →
  (http.Method r = "POST" ∧ ∃ body, http.Body r = http.Data body ∧ json_null body)
  ∨ (∃ resp, G modelRegistryURL = Some resp
             ∧ (http.StatusCode resp < 100 ∨ 999 < http.StatusCode resp)%Z).
Proof.
  rewrite serve_unfold. unfold mbind at 1, Handler_bind at 1.
  destruct (collect r (fresh r)) as [[params| |msg'] σ1] eqn:E; [|done|].
  2: { intros _. left. by eapply collect_panics. }
  destruct (collect_fresh _ _ _ E) as [_ Hn]. destruct (Hn _ eq_refl) as [Ha Hw].
  assert (http.wroteHeader (w σ1) = false) as Hu by (by rewrite Hw).
  unfold mbind at 1, Handler_bind at 1, call_model_registry.
  unfold mbind at 1, Handler_bind at 1, emit.
  destruct (G modelRegistryURL) as [resp|] eqn:HG.
  - destruct (negb _) eqn:Hs.
    + unfold http_Error, mbind, Handler_bind, return_; cbn [w trace].
      destruct (http.Error _ _ _) eqn:He; [done|].
      intros _. right. exists resp. split; [done|]. by eapply Error_panics.
    + destruct (http.RespBody resp) as [body|].
      * destruct (json.Unmarshal body None) as [err|data].
        -- unfold http_Error, mbind, Handler_bind, return_; cbn [w trace].
           by rewrite Error_final by (done || cbn; lia).
        -- unfold mret, Handler_ret.
           by rewrite render_fresh
             by (done || destruct Ha as [Ha|Ha]; cbn [w]; rewrite Hw; cbn; rewrite Ha; discriminate).
      * unfold http_Error, mbind, Handler_bind, return_; cbn [w trace].
        by rewrite Error_final by (done || cbn; lia).
  - unfold http_Error, mbind, Handler_bind, return_; cbn [w trace].
    by rewrite Error_final by (done || cbn; lia).
Qed.

(** ** When the handler answers *)

Lemma Write_wrote (x : http.ResponseWriter) (data : string) :
  http.wroteHeader (http.Write x data) = true.
Proof.
  unfold http.Write. destruct (http.wroteHeader x) eqn:E; by repeat case_match.
Qed.

Lemma answers_http_Error_return {A : Type} msg code :
  answers (http_Error msg code ;; @return_ A).
Proof.
  intros σ σ'. unfold http_Error, http.Error, mbind, Handler_bind, return_.
  destruct (http.WriteHeader _ code); cbn; intros; simplify_eq. apply Write_wrote.
Qed.

Lemma answers_ret {A : Type} (a : A) : answers (mret a).
Proof. by intros σ σ'. Qed.

Lemma answers_assign m key v : answers (assign m key v).
Proof. intros σ σ'. by destruct m. Qed.

Lemma answers_bind {A B : Type} (m : Handler A) (k : A → Handler B) :
  answers m → (∀ a, answers (k a)) → answers (m ≫= k).
Proof.
  intros Hm Hk σ σ'. unfold mbind, Handler_bind.
  destruct (m σ) as [[a| |msg] σ1] eqn:E; intros H; simplify_eq.
  - by eapply Hk.
  - by eapply Hm.
Qed.

Lemma answers_emit_then {A : Type} e (m : Handler A) : answers m → answers (emit e ;; m).
Proof. intros Hm. apply answers_bind; [by intros σ σ'|done]. Qed.

Lemma answers_Header_Set_then {A : Type} key v (m : Handler A) :
  answers m → answers (Header_Set key v ;; m).
Proof. intros Hm. apply answers_bind; [by intros σ σ'|done]. Qed.

Create HintDb answers.
#[local] Hint Resolve answers_http_Error_return answers_ret answers_assign
  answers_emit_then answers_Header_Set_then : answers.
#[local] Hint Extern 2 (answers (match ?x with _ => _ end)) => destruct x : answers.
#[local] Hint Extern 3 (answers (_ ≫= _)) => apply answers_bind; [|intros ?] : answers.

Lemma answers_read_params (r : http.Request) : answers (read_params r).
Proof. unfold read_params. auto 12 with answers. Qed.

Lemma answers_read_cookie (r : http.Request) params : answers (read_cookie r params).
Proof. unfold read_cookie. auto 12 with answers. Qed.

Lemma answers_read_header (r : http.Request) name params :
  answers (read_header r name params).
Proof. unfold read_header. auto 12 with answers. Qed.

Lemma answers_call_model_registry G : answers (call_model_registry G).
Proof. unfold call_model_registry. auto 12 with answers. Qed.

#[local] Hint Resolve answers_read_params answers_read_cookie answers_read_header : answers.

Lemma answers_collect (r : http.Request) : answers (collect r).
Proof. unfold collect. auto 12 with answers. Qed.

Lemma render_wrote F params data (σ : World) :
  http.wroteHeader (w (render F params data σ).2) = true.
Proof. unfold render. unfold_handler. cbn. apply Write_wrote. Qed.

(** Unless it panics, the handler answers the client. *)
Lemma serve_answers F G (r : http.Request) :
  (∀ msg, (serve F G r).1 ≠ Panic msg) → responded (serve F G r) = true.
Proof.
  unfold responded. rewrite serve_unfold. unfold mbind, Handler_bind. intros Hp.
  destruct (collect r (fresh r)) as [[params| |msg] σ1] eqn:E1.
  - destruct (call_model_registry G σ1) as [[data| |msg] σ2] eqn:E2.
    + apply render_wrote.
    + by eapply answers_call_model_registry.
    + by destruct (Hp msg).
  - by eapply answers_collect.
  - by destruct (Hp msg).
Qed.

(** * More properties of the handler *)

(** ** How lines 32-101 end *)

(** The five ways [collect] ends on a fresh writer: the method is refused;
    the body of a POST cannot be read; it is not accepted by
    [json.Unmarshal]; it is the JSON literal [null]; or the input is valid
    and [params] is passed on with the cookie and header entries set. *)
Lemma collect_cases (r : http.Request) :
  (¬ allowed r
   ∧ collect r (fresh r)
     = (Return, {| w := error_reply (framed r) "Method not allowed" 405; trace := [] |}))
  ∨ (http.Method r = "POST" ∧ http.Body r = http.ReadError
     ∧ collect r (fresh r)
       = (Return, {| w := error_reply (framed r) "Unable to read request body" 400;
                     trace := [ReadBody] |}))
  ∨ (http.Method r = "POST"
     ∧ (∃ body err, http.Body r = http.Data body ∧ body ≠ ""
                    ∧ json.Unmarshal body None = inl err)
     ∧ collect r (fresh r)
       = (Return, {| w := error_reply (framed r) "Invalid JSON in request body" 400;
                     trace := [ReadBody] |}))
  ∨ (http.Method r = "POST"
     ∧ (∃ body, http.Body r = http.Data body ∧ json_null body)
     ∧ collect r (fresh r)
       = (Panic "assignment to entry in nil map", {| w := framed r; trace := [ReadBody] |}))
  ∨ (∃ m, valid_input r m
          ∧ collect r (fresh r)
            = (Next (Some (with_auth r m)),
               {| w := framed r;
                  trace := [if bool_decide (http.Method r = "GET") then ParseForm
                            else ReadBody] |})).
Proof.
  destruct (decide (allowed r)) as [Ha|Ha];
    [|left; split; [done|by apply collect_not_allowed]].
  right.
  destruct (decide (http.Method r = "POST")) as [Hp|Hp].
  - assert (bool_decide (http.Method r = "GET") = false) as Hg
      by (apply bool_decide_eq_false_2; rewrite Hp; discriminate).
    destruct (http.Body r) as [body|] eqn:Hb.
    + destruct (decide (body = "")) as [->|Hne].
      { do 3 right. exists ∅. split; [right; left; done|].
        rewrite collect_allowed by done. unfold mbind at 1, Handler_bind at 1.
        rewrite read_params_post_empty by done. by rewrite auth_steps, Hg. }
      destruct (json.Unmarshal body None) as [err|[m|]] eqn:Hj.
      * right; left. split; [done|]. split; [by eauto|].
        rewrite collect_allowed by done. unfold mbind at 1, Handler_bind at 1.
        by rewrite (read_params_post_rejected r body err).
      * do 3 right. exists m. split; [right; right; eauto|].
        rewrite collect_allowed by done. unfold mbind at 1, Handler_bind at 1.
        rewrite (read_params_post_decoded r body (Some m)) by done.
        by rewrite auth_steps, Hg.
      * right; right; left. split; [done|].
        split; [exists body; split; [done|by eapply Unmarshal_nil]|].
        rewrite collect_allowed by done. unfold mbind at 1, Handler_bind at 1.
        rewrite (read_params_post_decoded r body None) by done.
        by rewrite auth_steps_nil.
    + left. split_and!; try done.
      rewrite collect_allowed by done. unfold mbind at 1, Handler_bind at 1.
      unfold read_params. rewrite bool_decide_eq_true_2 by done.
      unfold mbind at 1, Handler_bind at 1, emit. rewrite Hb.
      unfold http_Error, mbind, Handler_bind, return_; cbn [w trace].
      by rewrite Error_final by (done || cbn; lia).
  - destruct Ha as [Hg|]; [|done].
    do 3 right. exists (form_params (url.ParseQuery (http.RawQuery r))).
    split; [by left|].
    rewrite collect_allowed by (by left). unfold mbind at 1, Handler_bind at 1.
    rewrite read_params_get by done. rewrite auth_steps.
    by rewrite (bool_decide_eq_true_2 (http.Method r = "GET")).
Qed.

Lemma serve_from_collect F G (r : http.Request) f σ1 :
  collect r (fresh r) = (f, σ1) →
  serve F G r
  = match f with
    | Next params => (data ← call_model_registry G; render F params data) σ1
    | Return => (Return, σ1)
    | Panic msg => (Panic msg, σ1)
    end.
Proof.
  intros E. rewrite serve_unfold. unfold mbind at 1, Handler_bind at 1. rewrite E.
  by destruct f.
Qed.

(** [valid_input] gives a run that reaches the upstream call. *)
Lemma serve_valid F G (r : http.Request) (m : gmap string value) :
  valid_input r m →
  ∃ e, calls [e] = []
       ∧ serve F G r
         = (data ← call_model_registry G; render F (Some (with_auth r m)) data)
             {| w := framed r; trace := [e] |}.
Proof.
  intros Hv.
  pose proof (valid_input_allowed _ _ Hv) as Ha.
  destruct (read_params_valid r m {| w := framed r; trace := [] |} Hv) as (e & He & Hc).
  exists e. split; [done|].
  apply (serve_from_collect F G r (Next (Some (with_auth r m)))).
  rewrite collect_allowed by done. unfold mbind at 1, Handler_bind at 1.
  by rewrite He, auth_steps.
Qed.

Lemma call_trace G (σ : World) :
  trace (call_model_registry G σ).2 = trace σ ++ [HttpGet modelRegistryURL].
Proof.
  unfold call_model_registry, http_Error. unfold_handler.
  by repeat case_match; simplify_eq/=.
Qed.

Lemma after_collect_calls F G params (σ : World) :
  calls (trace ((data ← call_model_registry G; render F params data) σ).2)
  = calls (trace σ) ++ [modelRegistryURL].
Proof.
  unfold mbind, Handler_bind.
  pose proof (call_trace G σ) as Ht.
  destruct (call_model_registry G σ) as [[data| |msg] σ2]; cbn [snd] in *.
  - by rewrite quiet_render, Ht, calls_app.
  - by rewrite Ht, calls_app.
  - by rewrite Ht, calls_app.
Qed.

(** ** The error paths the handler has besides bad JSON *)

(** Lines 43-48: when the body of a POST cannot be read, the handler
    answers 400 with "Unable to read request body"; besides the attempt to
    read, it does nothing: no upstream call, no template. *)
Theorem body_unreadable F G (r : http.Request) :
  http.Method r = "POST" →
  http.Body r = http.ReadError →
  (serve F G r).1 = Return
  ∧ status_of (serve F G r) = 400%Z
  ∧ body_of (serve F G r) = error_body "Unable to read request body"
  ∧ trace (serve F G r).2 = [ReadBody].
Proof.
  intros Hm Hb.
  destruct (collect_cases r) as [[Ha _]|[(_ & _ & E)|[(_ & (? & ? & ? & _) & _)
    |[(_ & (? & ? & _) & _)|(m & Hv & _)]]]]; try congruence.
  - destruct Ha. by right.
  - rewrite (serve_from_collect _ _ _ _ _ E).
    unfold status_of, body_of, error_reply;
      cbn [fst snd w trace http.wroteHeader http.status http.written].
    by rewrite allowed_not_HEAD by (by right).
  - destruct Hv as [[? _]|[(_ & ? & _)|(_ & ? & ? & _)]]; congruence.
Qed.

Lemma body_unreadable_witness :
  status_of (serve literal (upstream 200 "{}") broken_post) = 400%Z
  ∧ trace (serve literal (upstream 200 "{}") broken_post).2 = [ReadBody].
Proof.
  destruct (body_unreadable literal (upstream 200 "{}") broken_post) as (_ & Hs & _ & Ht).
  - reflexivity.
  - reflexivity.
  - split; assumption.
Defined.

(** Lines 105-110: when the upstream call itself fails, a request with
    valid input is answered 500 with "Error calling model registry
    service". *)
Theorem registry_unreachable F G (r : http.Request) (m : gmap string value) :
  valid_input r m →
  G modelRegistryURL = None →
  (serve F G r).1 = Return
  ∧ status_of (serve F G r) = 500%Z
  ∧ body_of (serve F G r) = error_body "Error calling model registry service"
  ∧ calls (trace (serve F G r).2) = [modelRegistryURL].
Proof.
  intros Hv HG.
  pose proof (valid_input_allowed _ _ Hv) as Ha.
  destruct (serve_valid F G r m Hv) as (e & He & E).
  assert (calls (trace (serve F G r).2) = [modelRegistryURL]) as Hc.
  { rewrite E, after_collect_calls. cbn [trace]. by rewrite He. }
  split_and!; [..|done]; rewrite E; clear E Hc.
  all: unfold mbind at 1, Handler_bind at 1, call_model_registry.
  all: unfold mbind at 1, Handler_bind at 1, emit; rewrite HG.
  all: unfold http_Error, mbind, Handler_bind, return_; cbn [w trace].
  all: rewrite Error_final by (done || cbn; lia).
  all: unfold status_of, body_of, error_reply;
    cbn [fst snd w trace http.wroteHeader http.status http.written]; try done.
  by rewrite allowed_not_HEAD.
Qed.

Lemma registry_unreachable_witness :
  status_of (serve literal unreachable (request "GET" "" [] "")) = 500%Z
  ∧ body_of (serve literal unreachable (request "GET" "" [] ""))
    = error_body "Error calling model registry service".
Proof.
  destruct (registry_unreachable literal unreachable (request "GET" "" [] "")
              (form_params (url.ParseQuery ""))) as (_ & Hs & Hb & _).
  - left. split; reflexivity.
  - reflexivity.
  - split; assumption.
Defined.

(** Lines 122-127: when the upstream answers 200 but its body cannot be
    read, a request with valid input is answered 500 with "Error reading
    model registry response". *)
Theorem registry_body_unreadable F G (r : http.Request) (m : gmap string value)
    (resp : http.Response) :
  valid_input r m →
  G modelRegistryURL = Some resp →
  http.StatusCode resp = 200%Z →
  http.RespBody resp = http.ReadError →
  (serve F G r).1 = Return
  ∧ status_of (serve F G r) = 500%Z
  ∧ body_of (serve F G r) = error_body "Error reading model registry response"
  ∧ calls (trace (serve F G r).2) = [modelRegistryURL].
Proof.
  intros Hv HG Hs Hb.
  pose proof (valid_input_allowed _ _ Hv) as Ha.
  destruct (serve_valid F G r m Hv) as (e & He & E).
  assert (calls (trace (serve F G r).2) = [modelRegistryURL]) as Hc.
  { rewrite E, after_collect_calls. cbn [trace]. by rewrite He. }
  split_and!; [..|done]; rewrite E; clear E Hc.
  all: unfold mbind at 1, Handler_bind at 1, call_model_registry.
  all: unfold mbind at 1, Handler_bind at 1, emit; rewrite HG, Hs, Hb.
  all: change (negb (200 =? http.StatusOK)%Z) with false; cbv iota.
  all: unfold http_Error, mbind, Handler_bind, return_; cbn [w trace].
  all: rewrite Error_final by (done || cbn; lia).
  all: unfold status_of, body_of, error_reply;
    cbn [fst snd w trace http.wroteHeader http.status http.written]; try done.
  by rewrite allowed_not_HEAD.
Qed.

Lemma registry_body_unreadable_witness :
  status_of (serve literal cut_off (request "GET" "" [] "")) = 500%Z
  ∧ body_of (serve literal cut_off (request "GET" "" [] ""))
    = error_body "Error reading model registry response".
Proof.
  destruct (registry_body_unreadable literal cut_off (request "GET" "" [] "")
              (form_params (url.ParseQuery ""))
              {| http.StatusCode := 200; http.RespBody := http.ReadError |})
    as (_ & Hs & Hb & _).
  - left. split; reflexivity.
  - reflexivity.
  - reflexivity.
  - reflexivity.
  - split; assumption.
Defined.

(** ** How the upstream call ends *)

Lemma call_cases G (σ : World) :
  http.wroteHeader (w σ) = false →
  let after x := {| w := x; trace := trace σ ++ [HttpGet modelRegistryURL] |} in
  (G modelRegistryURL = None
   ∧ call_model_registry G σ
     = (Return, after (error_reply (w σ) "Error calling model registry service" 500)))
  ∨ (∃ resp, G modelRegistryURL = Some resp ∧ http.StatusCode resp ≠ 200%Z
       ∧ ((∃ x, http.Error (w σ) "Model registry service error" (http.StatusCode resp)
                = Some x
                ∧ call_model_registry G σ = (Return, after x))
          ∨ (http.Error (w σ) "Model registry service error" (http.StatusCode resp) = None
             ∧ call_model_registry G σ
               = (Panic "invalid WriteHeader code", after (http.Error_headers (w σ))))))
  ∨ (∃ resp, G modelRegistryURL = Some resp ∧ http.StatusCode resp = 200%Z
       ∧ http.RespBody resp = http.ReadError
       ∧ call_model_registry G σ
         = (Return, after (error_reply (w σ) "Error reading model registry response" 500)))
  ∨ (∃ resp body err, G modelRegistryURL = Some resp ∧ http.StatusCode resp = 200%Z
       ∧ http.RespBody resp = http.Data body
       ∧ json.Unmarshal body None = inl err
       ∧ call_model_registry G σ
         = (Return, after (error_reply (w σ) "Invalid JSON from model registry service" 400)))
  ∨ (∃ resp body data, G modelRegistryURL = Some resp ∧ http.StatusCode resp = 200%Z
       ∧ http.RespBody resp = http.Data body
       ∧ json.Unmarshal body None = inr data
       ∧ call_model_registry G σ = (Next data, after (w σ))).
Proof.
  intros Hw after.
  destruct (G modelRegistryURL) as [resp|] eqn:HG.
  2: { left. split; [done|]. unfold call_model_registry.
       unfold mbind at 1, Handler_bind at 1, emit. rewrite HG.
       unfold http_Error, mbind, Handler_bind, return_; cbn [w trace].
       by rewrite Error_final by (done || cbn; lia). }
  right.
  destruct (decide (http.StatusCode resp = 200%Z)) as [Hs|Hs].
  - right.
    destruct (http.RespBody resp) as [body|] eqn:Hb.
    + right.
      destruct (json.Unmarshal body None) as [err|data] eqn:Hj.
      * left. exists resp, body, err. split_and!; try done.
        by apply (call_bad_json G σ resp body err).
      * right. exists resp, body, data. split_and!; try done.
        by apply (call_decoded G σ resp body).
    + left. exists resp. split_and!; try done.
      unfold call_model_registry.
      unfold mbind at 1, Handler_bind at 1, emit. rewrite HG, Hs, Hb.
      change (negb (200 =? http.StatusOK)%Z) with false; cbv iota.
      unfold http_Error, mbind, Handler_bind, return_; cbn [w trace].
      by rewrite Error_final by (done || cbn; lia).
  - left. exists resp. split_and!; try done.
    unfold call_model_registry.
    unfold mbind at 1, Handler_bind at 1, emit. rewrite HG.
    replace (http.StatusCode resp =? http.StatusOK)%Z with false
      by (symmetry; by apply Z.eqb_neq).
    cbn [negb].
    unfold http_Error, mbind, Handler_bind, return_; cbn [w trace].
    destruct (http.Error _ _ _) as [x|]; [left; by exists x|by right].
Qed.

(** ** The upstream call: when, how often, and where to *)

(** Lines 103-105: a run makes at most one outbound call, and only to the
    fixed URL of the model registry. *)
Theorem single_call F G (r : http.Request) :
  calls (trace (serve F G r).2) = []
  ∨ calls (trace (serve F G r).2) = [modelRegistryURL].
Proof.
  destruct (collect r (fresh r)) as [f σ1] eqn:E.
  destruct (collect_fresh _ _ _ E) as [Hc _].
  rewrite (serve_from_collect _ _ _ _ _ E).
  destruct f as [params| |msg]; cbn [snd]; [right|by left..].
  by rewrite after_collect_calls, Hc.
Qed.

(** The call is made exactly for valid input: a GET, or a POST whose body
    is empty or decodes to a JSON object.  A request refused for its method,
    an unreadable body, rejected JSON or a [null] body never reaches the
    upstream. *)
Theorem called_iff_valid_input F G (r : http.Request) :
  modelRegistryURL ∈ calls (trace (serve F G r).2) ↔ ∃ m, valid_input r m.
Proof.
  split.
  - intros Hc. destruct (serve_called _ _ _ Hc) as (params & σ1 & E & _).
    destruct (collect_cases r) as [[_ E']|[(_ & _ & E')|[(_ & _ & E')
      |[(_ & _ & E')|(m & Hv & _)]]]]; [congruence..|by exists m].
  - intros [m Hv]. destruct (serve_valid F G r m Hv) as (e & He & E).
    rewrite E, after_collect_calls. cbn [trace]. rewrite He. in_list.
Qed.

Lemma called_iff_valid_input_witness :
  modelRegistryURL
  ∈ calls (trace (serve literal (upstream 200 "{}") (request "GET" "" [] "")).2).
Proof.
  apply (called_iff_valid_input literal (upstream 200 "{}") (request "GET" "" [] "")).
  exists (form_params (url.ParseQuery "")). left. split; reflexivity.
Defined.

(** ** When the page is served *)

Lemma serve_page F G (r : http.Request) (m : gmap string value)
    (resp : http.Response) (body : string) data :
  valid_input r m →
  G modelRegistryURL = Some resp →
  http.StatusCode resp = 200%Z →
  http.RespBody resp = http.Data body →
  json.Unmarshal body None = inr data →
  ∃ e, calls [e] = []
       ∧ serve F G r
         = render F (Some (with_auth r m)) data
             {| w := framed r; trace := [e; HttpGet modelRegistryURL] |}.
Proof.
  intros Hv HG Hs Hb Hj.
  destruct (serve_valid F G r m Hv) as (e & He & E).
  exists e. split; [done|]. rewrite E.
  unfold mbind at 1, Handler_bind at 1.
  by rewrite (call_decoded G _ resp body data).
Qed.

(** Lines 35-184: the handler runs to its end exactly when the input is
    valid and the upstream answers 200 with a body that can be read and that
    [json.Unmarshal] accepts, and it executes the template in exactly these
    runs.  The answer is then the page for [params] and the decoded registry
    data, with status 200. *)
Theorem page_iff_all_succeed F G (r : http.Request) :
  ((serve F G r).1 = Next () ↔ all_succeed G r)
  ∧ (TemplateExecute ∈ trace (serve F G r).2 ↔ all_succeed G r)
  ∧ (∀ m resp body data,
       valid_input r m →
       G modelRegistryURL = Some resp →
       http.StatusCode resp = 200%Z →
       http.RespBody resp = http.Data body →
       json.Unmarshal body None = inr data →
       status_of (serve F G r) = 200%Z
       ∧ body_of (serve F G r)
         = Execute F {| Params := Some (with_auth r m); ModelRegistry := data |}).
Proof.
  assert (∀ m resp body data,
            valid_input r m → G modelRegistryURL = Some resp →
            http.StatusCode resp = 200%Z → http.RespBody resp = http.Data body →
            json.Unmarshal body None = inr data →
            (serve F G r).1 = Next ()
            ∧ TemplateExecute ∈ trace (serve F G r).2
            ∧ status_of (serve F G r) = 200%Z
            ∧ body_of (serve F G r)
              = Execute F {| Params := Some (with_auth r m); ModelRegistry := data |})
    as Hpage.
  { intros m resp body data Hv HG Hs Hb Hj.
    pose proof (valid_input_allowed _ _ Hv) as Ha.
    destruct (serve_page F G r m resp body data) as (e & _ & ->); [done..|].
    rewrite render_fresh
      by (done || destruct Ha as [Ha|Ha]; cbn; rewrite Ha; discriminate).
    split_and!; [done| |done..]. cbn [snd trace app]. in_list. }
  assert ((serve F G r).1 = Next () ∨ TemplateExecute ∈ trace (serve F G r).2 →
          all_succeed G r) as Hend.
  { intros Hn.
    destruct (collect_cases r) as [[_ E]|[(_ & _ & E)|[(_ & _ & E)
      |[(_ & _ & E)|(m & Hv & E)]]]];
      rewrite (serve_from_collect _ _ _ _ _ E) in Hn; cbn [fst snd trace] in Hn;
      try (destruct Hn as [Hn|Hn]; [discriminate|not_in_list Hn]).
    unfold mbind, Handler_bind in Hn.
    destruct (call_cases G {| w := framed r; trace := [if bool_decide (http.Method r = "GET")
                                                        then ParseForm else ReadBody] |}
                eq_refl)
      as [[_ Ec]|[(resp & _ & _ & [(x & _ & Ec)|[_ Ec]])|[(resp & _ & _ & _ & Ec)
         |[(resp & body & err & _ & _ & _ & _ & Ec)
          |(resp & body & data & HG & Hs & Hb & Hj & Ec)]]]];
      try (rewrite Ec in Hn; cbn [fst snd trace app] in Hn;
           destruct Hn as [Hn|Hn]; [discriminate|not_in_list Hn]).
    by exists m, resp, body, data. }
  split_and!.
  - split; [by auto|]. intros (m & resp & body & data & Hv & HG & Hs & Hb & Hj).
    by destruct (Hpage m resp body data) as (? & _).
  - split; [by auto|]. intros (m & resp & body & data & Hv & HG & Hs & Hb & Hj).
    by destruct (Hpage m resp body data) as (_ & ? & _).
  - intros m resp body data Hv HG Hs Hb Hj.
    by destruct (Hpage m resp body data) as (_ & _ & ? & ?).
Qed.

Lemma page_iff_all_succeed_witness :
  (serve literal (upstream 200 "{}") (request "POST" "" [] "{}")).1 = Next ()
  ∧ ¬ all_succeed (upstream 503 "") (request "POST" "" [] "{}").
Proof.
  destruct (page_iff_all_succeed literal (upstream 200 "{}") (request "POST" "" [] "{}"))
    as ([_ H] & _).
  destruct (page_iff_all_succeed literal (upstream 503 "") (request "POST" "" [] "{}"))
    as ([_ H'] & _).
  split.
  - apply H. exists ∅, {| http.StatusCode := 200; http.RespBody := http.Data "{}" |}, "{}", (Some ∅).
    split_and!; try reflexivity.
    right; right. split; [reflexivity|]. exists "{}". split_and!; [reflexivity|discriminate|].
    by vm_compute.
  - intros Hall. specialize (H' Hall). vm_compute in H'. discriminate.
Defined.

(** ** What the handler does not look at *)

(** Lines 42-59: a POST takes [params] from its body only; its query string
    is never parsed and does not change the outcome. *)
Theorem post_ignores_query F G (r : http.Request) (query : string) :
  http.Method r = "POST" →
  serve F G (set_query r query) = serve F G r
  ∧ ParseForm ∉ trace (serve F G r).2.
Proof.
  intros Hm. split.
  - assert (read_params (set_query r query) = read_params r) as Hr.
    { unfold read_params. cbn [set_query http.Method http.Body].
      by rewrite bool_decide_eq_true_2. }
    unfold serve, handleRequest. by rewrite Hr.
  - destruct (collect r (fresh r)) as [f σ1] eqn:E.
    rewrite (serve_from_collect _ _ _ _ _ E).
    assert (ParseForm ∉ trace σ1) as Hσ.
    { destruct (collect_cases r) as [[_ E']|[(_ & _ & E')|[(_ & _ & E')
        |[(_ & _ & E')|(m & _ & E')]]]]; rewrite E' in E; simplify_eq; cbn [trace];
        rewrite ?bool_decide_eq_false_2 by (rewrite Hm; discriminate);
        intros Hin; by repeat (apply elem_of_cons in Hin as [?|Hin]; [done|]);
        apply elem_of_nil in Hin. }
    destruct f as [params| |msg]; cbn [snd]; [|done..].
    unfold mbind, Handler_bind.
    pose proof (call_trace G σ1) as Ht.
    destruct (call_model_registry G σ1) as [[data| |msg] σ2]; cbn [snd] in *.
    + unfold render. unfold_handler. cbn [snd trace]. rewrite Ht.
      rewrite !not_elem_of_app. split_and!; [done|..];
        intros Hin; by repeat (apply elem_of_cons in Hin as [?|Hin]; [done|]);
        apply elem_of_nil in Hin.
    + rewrite Ht, not_elem_of_app. split; [done|].
      intros Hin; by repeat (apply elem_of_cons in Hin as [?|Hin]; [done|]);
        apply elem_of_nil in Hin.
    + rewrite Ht, not_elem_of_app. split; [done|].
      intros Hin; by repeat (apply elem_of_cons in Hin as [?|Hin]; [done|]);
        apply elem_of_nil in Hin.
Qed.

Lemma post_ignores_query_witness :
  serve literal (upstream 200 "{}") (set_query (request "POST" "" [] "{}") "a=1")
  = serve literal (upstream 200 "{}") (request "POST" "" [] "{}").
Proof.
  apply (post_ignores_query literal (upstream 200 "{}") (request "POST" "" [] "{}") "a=1").
  reflexivity.
Defined.

(** Lines 60-70: a GET takes [params] from its query only; its body is
    never read and does not change the outcome. *)
Theorem get_ignores_body F G (r : http.Request) (body : http.body) :
  http.Method r = "GET" →
  serve F G (set_body r body) = serve F G r.
Proof.
  intros Hm.
  assert (read_params (set_body r body) = read_params r) as Hr.
  { unfold read_params. cbn [set_body http.Method http.RawQuery].
    by rewrite bool_decide_eq_false_2 by (rewrite Hm; discriminate). }
  unfold serve, handleRequest. by rewrite Hr.
Qed.

Lemma get_ignores_body_witness :
  serve literal (upstream 200 "{}") (set_body (request "GET" "a=1" [] "") http.ReadError)
  = serve literal (upstream 200 "{}") (request "GET" "a=1" [] "").
Proof.
  apply (get_ignores_body literal (upstream 200 "{}") (request "GET" "a=1" [] "")
           http.ReadError).
  reflexivity.
Defined.

(** Line 61 drops the error of [r.ParseForm()]: a GET is never refused for
    its query string, cookies or headers.  It always gets as far as the
    upstream call, having parsed the form and read no body. *)
Theorem get_reaches_upstream F G (r : http.Request) :
  http.Method r = "GET" →
  trace (serve F G r).2 = [ParseForm; HttpGet modelRegistryURL]
  ∨ trace (serve F G r).2 = [ParseForm; HttpGet modelRegistryURL; TemplateExecute].
Proof.
  intros Hm.
  destruct (collect_cases r) as [[Ha _]|[(? & _)|[(? & _)|[(? & _)|(m & _ & E)]]]];
    try congruence; [destruct Ha; by left|].
  rewrite (serve_from_collect _ _ _ _ _ E).
  rewrite bool_decide_eq_true_2 by done.
  unfold mbind, Handler_bind.
  pose proof (call_trace G {| w := framed r; trace := [ParseForm] |}) as Ht.
  destruct (call_model_registry G _) as [[data| |msg] σ2]; cbn [snd trace] in *.
  - right. unfold render. unfold_handler. cbn [snd trace]. by rewrite Ht.
  - by left.
  - by left.
Qed.

Lemma get_reaches_upstream_witness :
  trace (serve literal (upstream 200 "{}") (request "GET" "a=%zz&;" [] "")).2
  = [ParseForm; HttpGet modelRegistryURL; TemplateExecute].
Proof.
  destruct (get_reaches_upstream literal (upstream 200 "{}") (request "GET" "a=%zz&;" [] ""))
    as [H|H].
  - reflexivity.
  - vm_compute in H. discriminate.
  - exact H.
Defined.

(** ** Entries under other keys *)

Lemma with_cookie_other (r : http.Request) (m : gmap string value) (key : string) :
  key ≠ "oauth2_proxy_kubeflow" → with_cookie r m !! key = m !! key.
Proof.
  intros Hne. unfold with_cookie.
  destruct (http.Request_Cookie _ _); by rewrite lookup_insert_ne.
Qed.

Lemma with_header_size (r : http.Request) (name : string) (m : gmap string value) :
  (size m ≤ size (with_header r name m) ≤ S (size m))%nat.
Proof.
  unfold with_header. case_bool_decide; [lia|].
  rewrite map_size_insert. destruct (m !! name); cbn; lia.
Qed.

Lemma with_cookie_size (r : http.Request) (m : gmap string value) :
  (size m ≤ size (with_cookie r m) ≤ S (size m))%nat.
Proof.
  unfold with_cookie.
  destruct (http.Request_Cookie _ _); rewrite map_size_insert;
    destruct (m !! "oauth2_proxy_kubeflow"); cbn; lia.
Qed.

(** Lines 72-101 write the three reserved keys and nothing else: every
    other entry of [params] is kept as it was, none is removed, and at most
    three are added. *)
Theorem other_entries_kept (r : http.Request) (m : gmap string value) (σ : World) :
  ∃ m',
    (params ← read_cookie r (Some m);
     params ← read_header r "kubeflow-userid" params;
     read_header r "x-forwarded-access-token" params) σ
    = (Next (Some m'), σ)
    ∧ (∀ key, ¬ reserved key → m' !! key = m !! key)
    ∧ (∀ key, is_Some (m !! key) → is_Some (m' !! key))
    ∧ (size m ≤ size m' ≤ size m + 3)%nat.
Proof.
  exists (with_auth r m). split_and!.
  - apply auth_steps.
  - intros key Hk. unfold with_auth. rewrite !with_header_lookup.
    rewrite (bool_decide_eq_false_2 (key = "x-forwarded-access-token"))
      by (intros ->; apply Hk; unfold reserved; auto).
    rewrite (bool_decide_eq_false_2 (key = "kubeflow-userid"))
      by (intros ->; apply Hk; unfold reserved; auto).
    cbn [andb]. apply with_cookie_other. intros ->. apply Hk. by left.
  - intros key [v Hv]. unfold with_auth. rewrite !with_header_lookup.
    destruct (_ && _); [by eexists|].
    destruct (_ && _); [by eexists|].
    unfold with_cookie. destruct (http.Request_Cookie _ _);
      (destruct (decide (key = "oauth2_proxy_kubeflow")) as [->|];
       [rewrite lookup_insert_eq; by eexists|rewrite lookup_insert_ne by done; by eexists]).
  - unfold with_auth.
    pose proof (with_cookie_size r m).
    pose proof (with_header_size r "kubeflow-userid" (with_cookie r m)).
    pose proof (with_header_size r "x-forwarded-access-token"
                  (with_header r "kubeflow-userid" (with_cookie r m))).
    lia.
  - unfold with_auth.
    pose proof (with_cookie_size r m).
    pose proof (with_header_size r "kubeflow-userid" (with_cookie r m)).
    pose proof (with_header_size r "x-forwarded-access-token"
                  (with_header r "kubeflow-userid" (with_cookie r m))).
    lia.
Qed.

Lemma other_entries_kept_witness :
  ∃ m' : gmap string value, m' !! "a" = Some (Str "1") ∧ (1 ≤ size m' ≤ 4)%nat.
Proof.
  destruct (other_entries_kept (request "GET" "a=1" [] "") {["a" := Str "1"]}
              (fresh (request "GET" "a=1" [] ""))) as (m' & _ & Hk & _ & Hs).
  exists m'. split.
  - rewrite Hk; [reflexivity|]. intros [H|[H|H]]; discriminate H.
  - exact Hs.
Defined.

(** ** The status and the content type of the answer *)

Lemma Error_sent (x x' : http.ResponseWriter) (msg : string) (code : Z) :
  http.wroteHeader x = false →
  http.Error x msg code = Some x' →
  http.wroteHeader x' = true
  ∧ http.sentHeader x' = http.sent (http.handlerHeader (http.Error_headers x)) (http.status x')
  ∧ (http.status x' = code ∨ http.status x' = 200%Z).
Proof.
  intros Hw. unfold http.Error, http.WriteHeader.
  change (http.wroteHeader (http.Error_headers x)) with (http.wroteHeader x). rewrite Hw.
  destruct (_ || _); [done|].
  destruct (_ && _); cbn; intros; simplify_eq.
  - split; [apply Write_wrote|]. unfold http.Write.
    change (http.wroteHeader (http.Error_headers x)) with (http.wroteHeader x). rewrite Hw.
    repeat case_match; cbn; auto.
  - split; [apply Write_wrote|]. unfold http.Write. cbn.
    repeat case_match; cbn; auto.
Qed.

(** The status of every answer is 200, 400, 405 or 500, or it is the
    status the upstream call came back with. *)
Theorem status_codes F G (r : http.Request) :
  responded (serve F G r) = true →
  status_of (serve F G r) ∈ [200; 400; 405; 500]%Z
  ∨ ∃ resp, G modelRegistryURL = Some resp
            ∧ status_of (serve F G r) = http.StatusCode resp.
Proof.
  unfold responded, status_of.
  destruct (collect_cases r) as [[_ E]|[(_ & _ & E)|[(_ & _ & E)
    |[(_ & _ & E)|(m & Hv & E)]]]];
    rewrite (serve_from_collect _ _ _ _ _ E); cbn [snd w http.status error_reply];
    [intros _; left; in_list..|done|].
  unfold mbind, Handler_bind.
  pose proof (valid_input_allowed _ _ Hv) as Ha.
  destruct (call_cases G {| w := framed r; trace := [if bool_decide (http.Method r = "GET")
                                                      then ParseForm else ReadBody] |}
              eq_refl)
    as [[_ Ec]|[(resp & HG & _ & [(x & Hx & Ec)|[_ Ec]])|[(resp & _ & _ & _ & Ec)
       |[(resp & body & err & _ & _ & _ & _ & Ec)
        |(resp & body & data & HG & Hs & Hb & Hj & Ec)]]]];
    rewrite Ec; cbn [snd w http.status error_reply http.wroteHeader].
  - intros _. left. in_list.
  - intros _. cbn [w] in Hx. destruct (Error_sent _ _ _ _ (framed_unsent r) Hx) as (_ & _ & [Hc|Hc]).
    + right. by exists resp.
    + left. rewrite Hc. in_list.
  - done.
  - intros _. left. in_list.
  - intros _. left. in_list.
  - intros _. left.
    rewrite render_fresh by (done || destruct Ha as [Ha|Ha]; cbn; rewrite Ha; discriminate).
    cbn. in_list.
Qed.

Lemma status_codes_witness :
  status_of (serve literal (upstream 404 "") (request "GET" "" [] "")) ∈ [200; 400; 405; 500]%Z
  ∨ ∃ resp, upstream 404 "" modelRegistryURL = Some resp
            ∧ status_of (serve literal (upstream 404 "") (request "GET" "" [] ""))
              = http.StatusCode resp.
Proof.
  apply (status_codes literal (upstream 404 "") (request "GET" "" [] "")).
  reflexivity.
Defined.

Lemma sent_Content_Type (h : http.Header) (code : Z) :
  http.sent h code !! "Content-Type"
  = if (code =? 304)%Z then None else h !! "Content-Type".
Proof.
  unfold http.sent, http.suppressedHeaders.
  destruct (code =? 304)%Z; cbn [foldr]; [by rewrite lookup_delete_eq|].
  destruct (negb _); cbn [foldr]; by rewrite ?lookup_delete_ne.
Qed.

(** An answer sent on an early return is marked [nosniff] and is plain
    text, as [http.Error] makes it; when its status is 304, which only the
    upstream can bring, the server sends it without a content type.  The
    answer of a run that reaches its end is HTML. *)
Theorem content_type_by_outcome F G (r : http.Request) :
  ((serve F G r).1 = Return →
   headers_of (serve F G r) !! "X-Content-Type-Options" = Some ["nosniff"]
   ∧ headers_of (serve F G r) !! "Content-Type"
     = if (status_of (serve F G r) =? 304)%Z then None
       else Some ["text/plain; charset=utf-8"])
  ∧ ((serve F G r).1 = Next () →
     headers_of (serve F G r) !! "Content-Type" = Some ["text/html; charset=utf-8"]
     ∧ headers_of (serve F G r) !! "X-Content-Type-Options" = None).
Proof.
  unfold headers_of, status_of.
  destruct (collect_cases r) as [[_ E]|[(_ & _ & E)|[(_ & _ & E)
    |[(_ & _ & E)|(m & Hv & E)]]]];
    rewrite (serve_from_collect _ _ _ _ _ E); cbn [fst snd w];
    [split; [intros _; split; by vm_compute|done]..|by split|].
  unfold mbind, Handler_bind.
  pose proof (valid_input_allowed _ _ Hv) as Ha.
  destruct (call_cases G {| w := framed r; trace := [if bool_decide (http.Method r = "GET")
                                                      then ParseForm else ReadBody] |}
              eq_refl)
    as [[_ Ec]|[(resp & HG & _ & [(x & Hx & Ec)|[_ Ec]])|[(resp & _ & _ & _ & Ec)
       |[(resp & body & err & _ & _ & _ & _ & Ec)
        |(resp & body & data & HG & Hs & Hb & Hj & Ec)]]]];
    rewrite Ec; cbn [fst snd w].
  - split; [intros _; split; by vm_compute|done].
  - split; [intros _|done].
    cbn [w] in Hx. destruct (Error_sent _ _ _ _ (framed_unsent r) Hx) as (-> & -> & _).
    split.
    + rewrite sent_lookup; [by vm_compute|].
      intros H. by repeat (apply elem_of_cons in H as [?|H]; [done|]);
        apply elem_of_nil in H.
    + rewrite sent_Content_Type. by destruct (_ =? 304)%Z.
  - by split.
  - split; [intros _; split; by vm_compute|done].
  - split; [intros _; split; by vm_compute|done].
  - rewrite render_fresh by (done || destruct Ha as [Ha|Ha]; cbn; rewrite Ha; discriminate).
    cbn [fst snd w http.wroteHeader http.sentHeader].
    split; [done|intros _; split; by vm_compute].
Qed.

Lemma content_type_by_outcome_witness :
  headers_of (serve literal (upstream 304 "") (request "GET" "" [] "")) !! "Content-Type"
  = None
  ∧ headers_of (serve literal unreachable (request "GET" "" [] "")) !! "Content-Type"
    = Some ["text/plain; charset=utf-8"].
Proof.
  split.
  - destruct (content_type_by_outcome literal (upstream 304 "") (request "GET" "" [] ""))
      as [H _].
    destruct H as [_ H]; [reflexivity|exact H].
  - destruct (content_type_by_outcome literal unreachable (request "GET" "" [] "")) as [H _].
    destruct H as [_ H]; [reflexivity|exact H].
Defined.

(** ** What the page is made of *)

Lemma CountByte_append (s t : string) (b : N) :
  CountByte (s +:+ t) b = (CountByte s b + CountByte t b)%nat.
Proof.
  induction s as [|c s IH]; [done|].
  rewrite append_cons. cbn [CountByte]. rewrite IH. lia.
Qed.

Lemma CountByte_htmlReplacement (c : ascii) :
  CountByte (htmlReplacement c) 60 = 0%nat ∧ CountByte (htmlReplacement c) 62 = 0%nat.
Proof. by destruct c as [[] [] [] [] [] [] [] []]. Qed.

Lemma CountByte_htmlEscape (s : string) :
  CountByte (htmlEscape s) 60 = 0%nat ∧ CountByte (htmlEscape s) 62 = 0%nat.
Proof.
  induction s as [|c s [IH1 IH2]]; [done|].
  cbn [htmlEscape]. rewrite !CountByte_append, IH1, IH2.
  by destruct (CountByte_htmlReplacement c) as [-> ->].
Qed.

Lemma CountByte_item F (kv : string * value) :
  CountByte (item F kv) 60 = 4%nat ∧ CountByte (item F kv) 62 = 4%nat.
Proof.
  unfold item. rewrite !CountByte_append.
  destruct (CountByte_htmlEscape kv.1) as [-> ->].
  destruct (CountByte_htmlEscape (Sprint F kv.2)) as [-> ->].
  by vm_compute.
Qed.

Lemma CountByte_items F (l : list (string * value)) :
  CountByte (foldr (λ kv rest, item F kv +:+ rest) "" l) 60 = (4 * length l)%nat
  ∧ CountByte (foldr (λ kv rest, item F kv +:+ rest) "" l) 62 = (4 * length l)%nat.
Proof.
  induction l as [|kv l [IH1 IH2]]; [done|].
  cbn [foldr length]. rewrite !CountByte_append, IH1, IH2.
  destruct (CountByte_item F kv) as [-> ->]. lia.
Qed.

(** Lines 136-166 and 181: keys and values add no markup to the page.
    Whatever the two maps hold, the page has the 19 opening and 19 closing
    angle brackets of the template text and four of each for every entry;
    an angle bracket in a key or a value is written as an entity. *)
Theorem no_markup_from_data F (data : ParamsData) :
  let n := (size (default ∅ (Params data)) + size (default ∅ (ModelRegistry data)))%nat in
  CountByte (Execute F data) 60 = (19 + 4 * n)%nat
  ∧ CountByte (Execute F data) 62 = (19 + 4 * n)%nat.
Proof.
  cbv zeta. unfold Execute, range. rewrite !CountByte_append.
  destruct (CountByte_items F (sorted_items (default ∅ (Params data)))) as [-> ->].
  destruct (CountByte_items F (sorted_items (default ∅ (ModelRegistry data)))) as [-> ->].
  rewrite !length_sorted_items.
  replace (CountByte tmpl_head 60) with 12%nat by (by vm_compute).
  replace (CountByte tmpl_middle 60) with 4%nat by (by vm_compute).
  replace (CountByte tmpl_tail 60) with 3%nat by (by vm_compute).
  replace (CountByte tmpl_head 62) with 12%nat by (by vm_compute).
  replace (CountByte tmpl_middle 62) with 4%nat by (by vm_compute).
  replace (CountByte tmpl_tail 62) with 3%nat by (by vm_compute).
  lia.
Qed.

Lemma append_nil_r (s : string) : s +:+ "" = s.
Proof. induction s as [|c s IH]; [done|]. by rewrite append_cons, IH. Qed.

Lemma Contains_refl (s : string) : Contains s s.
Proof.
  exists "", "". change ("" +:+ s +:+ "") with (s +:+ ""). by rewrite append_nil_r.
Qed.

Lemma Contains_append_r (s t sub : string) : Contains t sub → Contains (s +:+ t) sub.
Proof. intros (a & b & ->). exists (s +:+ a), b. by rewrite append_assoc. Qed.

Lemma Contains_append_l (s t sub : string) : Contains s sub → Contains (s +:+ t) sub.
Proof. intros (a & b & ->). exists a, (b +:+ t). by rewrite !append_assoc. Qed.

Lemma Contains_items F (l : list (string * value)) (kv : string * value) :
  kv ∈ l → Contains (foldr (λ kv rest, item F kv +:+ rest) "" l) (item F kv).
Proof.
  induction l as [|kv' l IH]; [by intros ?%elem_of_nil|].
  intros [->|Hin]%elem_of_cons; cbn [foldr].
  - apply Contains_append_l, Contains_refl.
  - by apply Contains_append_r, IH.
Qed.

Lemma elem_of_sorted_items (m : gmap string value) (k : string) (v : value) :
  m !! k = Some v → (k, v) ∈ sorted_items m.
Proof.
  intros H. unfold sorted_items. rewrite merge_sort_Permutation.
  by apply elem_of_map_to_list.
Qed.

Lemma item_text F (k : string) (v : value) :
  item F (k, v)
  = (str1 10 +:+ tabs 4)
    +:+ ("<li><strong>" +:+ htmlEscape k +:+ ":</strong> " +:+ htmlEscape (Sprint F v)
         +:+ "</li>")
    +:+ (str1 10 +:+ tabs 3).
Proof.
  unfold item, item_open, item_middle, item_close. cbn [fst snd].
  by rewrite !append_assoc.
Qed.

Lemma Contains_range F (m : gmap string value) (k : string) (v : value) :
  m !! k = Some v → Contains (range F (Some m)) (item F (k, v)).
Proof.
  intros Hk. unfold range. cbn [default].
  by apply Contains_items, elem_of_sorted_items.
Qed.

Lemma Contains_trans (s t u : string) : Contains s t → Contains t u → Contains s u.
Proof.
  intros (a & b & ->) (a' & b' & ->).
  exists (a +:+ a'), (b' +:+ b). by rewrite !append_assoc.
Qed.

(** Lines 153-155 and 160-162: every entry of [Params] and every entry of
    [ModelRegistry] is in the page, as the list item of its key and of the
    [%v] text of its value, both HTML-escaped. *)
Theorem entries_shown F (data : ParamsData) (m : gmap string value) (k : string) (v : value) :
  (Params data = Some m ∨ ModelRegistry data = Some m) →
  m !! k = Some v →
  Contains (Execute F data)
    ("<li><strong>" +:+ htmlEscape k +:+ ":</strong> " +:+ htmlEscape (Sprint F v)
     +:+ "</li>").
Proof.
  intros Hd Hk.
  apply (Contains_trans _ (item F (k, v))).
  - apply (Contains_trans _ (range F (Some m))); [|by apply Contains_range].
    unfold Execute. destruct Hd as [-> | ->].
    + apply Contains_append_r, Contains_append_l, Contains_refl.
    + do 3 apply Contains_append_r. apply Contains_append_l, Contains_refl.
  - rewrite item_text. apply Contains_append_r, Contains_append_l, Contains_refl.
Qed.

Lemma entries_shown_witness :
  Contains
    (Execute literal {| Params := Some {["a<b" := Str "x&y"]}; ModelRegistry := None |})
    "<li><strong>a&lt;b:</strong> x&amp;y</li>".
Proof.
  apply (entries_shown literal
           {| Params := Some {["a<b" := Str "x&y"]}; ModelRegistry := None |}
           {["a<b" := Str "x&y"]} "a<b" (Str "x&y")).
  - by left.
  - by vm_compute.
Defined.

(** Lines 75-77 with 153-155: when a request with valid input has no
    [oauth2_proxy_kubeflow] cookie and the upstream call succeeds, the page
    lists that key all the same, with the text of a nil value. *)
Theorem missing_cookie_shown F G (r : http.Request) (m : gmap string value)
    (resp : http.Response) (body : string) data :
  valid_input r m →
  http.Request_Cookie r "oauth2_proxy_kubeflow" = inl http.ErrNoCookie →
  G modelRegistryURL = Some resp →
  http.StatusCode resp = 200%Z →
  http.RespBody resp = http.Data body →
  json.Unmarshal body None = inr data →
  Contains (body_of (serve F G r))
    "<li><strong>oauth2_proxy_kubeflow:</strong> &lt;nil&gt;</li>".
Proof.
  intros Hv Hc HG Hs Hb Hj.
  pose proof (valid_input_allowed _ _ Hv) as Ha.
  destruct (serve_page F G r m resp body data) as (e & _ & ->); [done..|].
  rewrite render_fresh by (done || destruct Ha as [Ha|Ha]; cbn; rewrite Ha; discriminate).
  unfold body_of. cbn [snd w http.written].
  change (http.written (framed r) +:+ ?p) with p.
  assert (with_auth r m !! "oauth2_proxy_kubeflow" = Some Nil) as Hk.
  { unfold with_auth. rewrite !with_header_lookup. cbn [andb].
    unfold with_cookie. rewrite Hc. by rewrite lookup_insert_eq. }
  apply (Contains_trans _ (item F ("oauth2_proxy_kubeflow", Nil))).
  - apply (Contains_trans _ (range F (Some (with_auth r m)))); [|by apply Contains_range].
    unfold Execute. cbn [Params]. apply Contains_append_r, Contains_append_l, Contains_refl.
  - rewrite item_text. apply Contains_append_r, Contains_append_l.
    change (htmlEscape "oauth2_proxy_kubeflow") with "oauth2_proxy_kubeflow".
    change (htmlEscape (Sprint F Nil)) with "&lt;nil&gt;".
    apply Contains_refl.
Qed.

Lemma missing_cookie_shown_witness :
  Contains (body_of (serve literal (upstream 200 "{}") (request "GET" "" [] "")))
    "<li><strong>oauth2_proxy_kubeflow:</strong> &lt;nil&gt;</li>".
Proof.
  apply (missing_cookie_shown literal (upstream 200 "{}") (request "GET" "" [] "")
           (form_params (url.ParseQuery ""))
           {| http.StatusCode := 200; http.RespBody := http.Data "{}" |} "{}" (Some ∅)).
  - left. split; reflexivity.
  - reflexivity.
  - reflexivity.
  - reflexivity.
  - reflexivity.
  - by vm_compute.
Defined.

(** ** Edges of the POST body *)

(** Lines 51-56: a body can be a JSON object and still be refused.  When
    one of its numbers is beyond the range of a float64, [json.Unmarshal]
    reports an error and the handler answers 400, without calling the
    upstream. *)
Theorem number_out_of_range_rejected F G (r : http.Request) (body : string)
    (members : list (string * value)) :
  http.Method r = "POST" →
  http.Body r = http.Data body →
  json.scan body = json.Scanned (Map members) "" →
  forallb (λ kv, json.convertible kv.2) members = false →
  (serve F G r).1 = Return
  ∧ status_of (serve F G r) = 400%Z
  ∧ body_of (serve F G r) = error_body "Invalid JSON in request body"
  ∧ calls (trace (serve F G r).2) = [].
Proof.
  intros Hm Hb Hscan Hconv.
  assert (json.Unmarshal body None = inl json.UnmarshalTypeError) as Hj
    by (unfold json.Unmarshal; by rewrite Hscan, Hconv).
  assert (body ≠ "") as Hne by (by intros ->).
  destruct (collect_cases r) as [[Ha _]|[(_ & ? & _)|[(_ & _ & E)
    |[(_ & (b' & ? & Hn) & _)|(m & Hv & _)]]]].
  - destruct Ha. by right.
  - congruence.
  - rewrite (serve_from_collect _ _ _ _ _ E).
    unfold status_of, body_of, error_reply;
      cbn [fst snd w trace http.wroteHeader http.status http.written].
    by rewrite allowed_not_HEAD by (by right).
  - simplify_eq. unfold json_null in Hn. congruence.
  - destruct Hv as [[? _]|[(_ & ? & _)|(_ & b' & ? & _ & ?)]]; congruence.
Qed.

Lemma number_out_of_range_rejected_witness :
  status_of (serve literal (upstream 200 "{}") (request "POST" "" [] huge_number_body))
  = 400%Z.
Proof.
  destruct (number_out_of_range_rejected literal (upstream 200 "{}")
              (request "POST" "" [] huge_number_body) huge_number_body
              [("n", Float64 "1e999")]) as (_ & Hs & _).
  - reflexivity.
  - reflexivity.
  - by vm_compute.
  - by vm_compute.
  - exact Hs.
Defined.

(** Lines 57-59 with 72-101: a POST with an empty body starts from an
    empty [params]; what the page shows for it are the reserved keys only,
    between one and three of them, the cookie key always among them. *)
Theorem empty_post_params F G (r : http.Request)
    (resp : http.Response) (body : string) data :
  http.Method r = "POST" →
  http.Body r = http.Data "" →
  G modelRegistryURL = Some resp →
  http.StatusCode resp = 200%Z →
  http.RespBody resp = http.Data body →
  json.Unmarshal body None = inr data →
  ∃ params,
    (serve F G r).1 = Next ()
    ∧ status_of (serve F G r) = 200%Z
    ∧ body_of (serve F G r) = Execute F {| Params := Some params; ModelRegistry := data |}
    ∧ (∀ key, is_Some (params !! key) → reserved key)
    ∧ is_Some (params !! "oauth2_proxy_kubeflow")
    ∧ (1 ≤ size params ≤ 3)%nat.
Proof.
  intros Hm Hb HG Hs Hrb Hj.
  assert (valid_input r ∅) as Hv by (right; left; done).
  pose proof (valid_input_allowed _ _ Hv) as Ha.
  exists (with_auth r ∅).
  destruct (serve_page F G r ∅ resp body data) as (e & _ & ->); [done..|].
  rewrite render_fresh by (done || destruct Ha as [Ha|Ha]; cbn; rewrite Ha; discriminate).
  assert (is_Some (with_auth r ∅ !! "oauth2_proxy_kubeflow")) as Hck.
  { unfold with_auth. rewrite !with_header_lookup. cbn [andb].
    unfold with_cookie. destruct (http.Request_Cookie _ _); by rewrite lookup_insert_eq. }
  split_and!; try done.
  - intros key [v Hk]. destruct (decide (reserved key)) as [|Hr]; [done|].
    exfalso. revert Hk. unfold with_auth. rewrite !with_header_lookup.
    rewrite (bool_decide_eq_false_2 (key = "x-forwarded-access-token"))
      by (intros ->; apply Hr; unfold reserved; auto).
    rewrite (bool_decide_eq_false_2 (key = "kubeflow-userid"))
      by (intros ->; apply Hr; unfold reserved; auto).
    cbn [andb]. rewrite with_cookie_other by (intros ->; apply Hr; by left).
    by rewrite lookup_empty.
  - destruct Hck as [v Hck]. destruct (decide (size (with_auth r ∅) = 0%nat)) as [Hz|]; [|lia].
    apply map_size_empty_inv in Hz. rewrite Hz, lookup_empty in Hck. done.
  - unfold with_auth.
    pose proof (with_cookie_size r ∅).
    pose proof (with_header_size r "kubeflow-userid" (with_cookie r ∅)).
    pose proof (with_header_size r "x-forwarded-access-token"
                  (with_header r "kubeflow-userid" (with_cookie r ∅))).
    rewrite map_size_empty in *. lia.
Qed.

Lemma empty_post_params_witness :
  (serve literal (upstream 200 "{}") (request "POST" "" [] "")).1 = Next ().
Proof.
  destruct (empty_post_params literal (upstream 200 "{}") (request "POST" "" [] "")
              {| http.StatusCode := 200; http.RespBody := http.Data "{}" |} "{}" (Some ∅))
    as (params & H & _).
  - reflexivity.
  - reflexivity.
  - reflexivity.
  - reflexivity.
  - reflexivity.
  - by vm_compute.
  - exact H.
Defined.

(** ** A branch that is never taken *)

Lemma Write_written (x : http.ResponseWriter) (data : string) :
  http.written x = "" →
  http.written (http.Write x data) = "" ∨ http.written (http.Write x data) = data.
Proof. intros Hw. unfold http.Write. repeat case_match; cbn; rewrite ?Hw; auto. Qed.

Lemma Error_written (x x' : http.ResponseWriter) (msg : string) (code : Z) :
  http.written x = "" →
  http.Error x msg code = Some x' →
  http.written x' = "" ∨ http.written x' = error_body msg.
Proof.
  intros Hw. unfold http.Error.
  destruct (http.WriteHeader (http.Error_headers x) code) as [y|] eqn:E; [|done].
  intros [= <-]. apply Write_written.
  revert E. unfold http.WriteHeader. repeat case_match; intros; by simplify_eq.
Qed.

(** Lines 78-82 are never taken: [r.Cookie] fails with [ErrNoCookie] only,
    so no request is answered with "Error reading cookies". *)
Theorem cookie_error_never F G (r : http.Request) :
  body_of (serve F G r) ≠ error_body "Error reading cookies".
Proof.
  unfold body_of.
  destruct (collect_cases r) as [[_ E]|[(_ & _ & E)|[(_ & _ & E)
    |[(_ & _ & E)|(m & Hv & E)]]]];
    rewrite (serve_from_collect _ _ _ _ _ E); cbn [snd w http.written error_reply];
    try (by repeat case_match).
  unfold mbind, Handler_bind.
  pose proof (valid_input_allowed _ _ Hv) as Ha.
  destruct (call_cases G {| w := framed r; trace := [if bool_decide (http.Method r = "GET")
                                                      then ParseForm else ReadBody] |}
              eq_refl)
    as [[_ Ec]|[(resp & HG & _ & [(x & Hx & Ec)|[_ Ec]])|[(resp & _ & _ & _ & Ec)
       |[(resp & body & err & _ & _ & _ & _ & Ec)
        |(resp & body & data & HG & Hs & Hb & Hj & Ec)]]]];
    rewrite Ec; cbn [snd w http.written error_reply];
    try (by repeat case_match).
  - cbn [w] in Hx. by destruct (Error_written (framed r) _ _ _ eq_refl Hx) as [-> | ->].
  - rewrite render_fresh by (done || destruct Ha as [Ha|Ha]; cbn; rewrite Ha; discriminate).
    cbn [snd w http.written].
    intros H. apply (f_equal (λ s, match s with String c _ => byte c | EmptyString => 0 end)) in H.
    by vm_compute in H.
Qed.

(** ** The page, for input given as text *)






(** ** The routes of [main] *)

Lemma main_routes_registered F G : main_routes F G = Some (main_mux F G).
Proof. reflexivity. Qed.

Lemma append_slash_inj (s t : string) : s +:+ "/" = t +:+ "/" → s = t.
Proof.
  revert t. induction s as [|c s IH]; intros [|d t] H; try done.
  - rewrite append_cons in H. destruct t; discriminate.
  - rewrite append_cons in H. destruct s; discriminate.
  - rewrite !append_cons in H. simplify_eq. f_equal. by apply IH.
Qed.

Lemma cleanPath_rooted (p : string) : mux.starts_with_slash (mux.cleanPath p) = true.
Proof. unfold mux.cleanPath, mux.Clean. by repeat case_match. Qed.

Lemma rooted_HasPrefix (s : string) : mux.starts_with_slash s = true → HasPrefix s "/" = true.
Proof.
  destruct s as [|c s]; [done|]. cbn. intros H%N.eqb_eq.
  replace c with "/"%char by (apply (f_equal chr) in H; unfold chr, byte in H;
                              by rewrite ascii_N_embedding in H).
  by destruct s.
Qed.

Lemma not_rooted_append (host s : string) :
  mux.starts_with_slash host = false →
  host +:+ s = s ∨ mux.starts_with_slash (host +:+ s) = false.
Proof. destruct host as [|c host]; [by left|right; done]. Qed.

Lemma main_mux_lookup F G (s : string) :
  mux.m (main_mux F G) !! s
  = if bool_decide (s = "/modelRegistry/")
    then Some {| mux.h := handleRequest F G; mux.pattern := "/modelRegistry/" |}
    else if bool_decide (s = "/")
         then Some {| mux.h := handleRequest F G; mux.pattern := "/" |}
         else None.
Proof.
  unfold main_mux; cbn [mux.m].
  destruct (decide (s = "/modelRegistry/")) as [->|E1]; [by rewrite lookup_insert_eq|].
  rewrite (bool_decide_eq_false_2 _ E1), lookup_insert_ne by done.
  destruct (decide (s = "/")) as [->|E2]; [by rewrite lookup_insert_eq|].
  by rewrite (bool_decide_eq_false_2 _ E2), lookup_insert_ne, lookup_empty.
Qed.

Lemma main_mux_not_rooted F G (s : string) :
  mux.starts_with_slash s = false → mux.m (main_mux F G) !! s = None.
Proof.
  intros H. rewrite main_mux_lookup.
  rewrite !bool_decide_eq_false_2; [done|by intros ->..].
Qed.

Lemma is_Some_None_false : bool_decide (is_Some (@None mux.muxEntry)) = false.
Proof. apply bool_decide_eq_false_2. by intros [? ?]. Qed.

(** Of the paths a request can have after cleaning, the mux redirects one to
    add a slash: [/modelRegistry]. *)
Lemma main_mux_shouldRedirect F G (host p : string) :
  mux.starts_with_slash host = false →
  mux.starts_with_slash p = true →
  mux.shouldRedirectRLocked (main_mux F G) host p = bool_decide (p = "/modelRegistry").
Proof.
  intros Hh Hp. unfold mux.shouldRedirectRLocked.
  assert (∀ s, mux.m (main_mux F G) !! (host +:+ s) = mux.m (main_mux F G) !! s
               ∨ mux.m (main_mux F G) !! (host +:+ s) = None) as Hhost.
  { intros s. destruct (not_rooted_append host s Hh) as [->|Hn]; [by left|].
    right. by apply main_mux_not_rooted. }
  assert (mux.m (main_mux F G) !! (p +:+ "/")
          = if bool_decide (p = "/modelRegistry")
            then Some {| mux.h := handleRequest F G; mux.pattern := "/modelRegistry/" |}
            else None) as Hc.
  { rewrite main_mux_lookup. destruct (decide (p = "/modelRegistry")) as [->|E].
    - change ("/modelRegistry" +:+ "/") with "/modelRegistry/".
      by rewrite !bool_decide_eq_true_2.
    - rewrite (bool_decide_eq_false_2 (p = "/modelRegistry")) by done.
      rewrite bool_decide_eq_false_2.
      + rewrite bool_decide_eq_false_2; [done|].
        change "/" with ("" +:+ "/") at 2. intros ?%append_slash_inj. by subst.
      + change "/modelRegistry/" with ("/modelRegistry" +:+ "/").
        by intros ?%append_slash_inj. }
  assert (mux.m (main_mux F G) !! p = None ∨ p ≠ "/modelRegistry" ∧ is_Some (mux.m (main_mux F G) !! p))
    as Ha.
  { rewrite main_mux_lookup.
    destruct (decide (p = "/modelRegistry/")) as [->|E1].
    { right. rewrite bool_decide_eq_true_2 by done. split; [done|by eexists]. }
    rewrite (bool_decide_eq_false_2 _ E1).
    destruct (decide (p = "/")) as [->|E2].
    { right. rewrite bool_decide_eq_true_2 by done. split; [done|by eexists]. }
    rewrite (bool_decide_eq_false_2 _ E2). by left. }
  assert (p ≠ "") as Hne by (by intros ->).
  assert (∀ o : option mux.muxEntry, is_Some o → bool_decide (is_Some o) = true) as HS
    by (intros; by apply bool_decide_eq_true_2).
  destruct Ha as [Ha|[Hn Ha]].
  - rewrite Ha, is_Some_None_false.
    assert (bool_decide (is_Some (mux.m (main_mux F G) !! (host +:+ p))) = false) as ->
      by (destruct (Hhost p) as [Hb|Hb]; by rewrite Hb, ?Ha, is_Some_None_false).
    cbn [orb]. rewrite (bool_decide_eq_false_2 (p = "")) by done.
    destruct (decide (p = "/modelRegistry")) as [->|E].
    + change ("/modelRegistry" +:+ "/") with "/modelRegistry/" in *.
      rewrite (main_mux_lookup F G "/modelRegistry/").
      rewrite (bool_decide_eq_true_2 ("/modelRegistry/" = "/modelRegistry/")) by done.
      rewrite HS by (by eexists). cbn [orb].
      by rewrite bool_decide_eq_true_2.
    + rewrite (bool_decide_eq_false_2 (p = "/modelRegistry")) in * by done.
      rewrite Hc, is_Some_None_false.
      by destruct (Hhost (p +:+ "/")) as [Hd|Hd]; rewrite Hd, ?Hc, is_Some_None_false.
  - rewrite (HS _ Ha). cbn [orb]. by rewrite bool_decide_eq_false_2.
Qed.

(** A rooted path is always matched: by the longer pattern when it lies
    under [/modelRegistry/], by [/] otherwise; the handler is the same. *)
Lemma main_mux_handler F G (host p : string) :
  mux.starts_with_slash p = true →
  mux.handler (main_mux F G) host p
  = Some {| mux.h := handleRequest F G;
            mux.pattern := if HasPrefix p "/modelRegistry/" then "/modelRegistry/" else "/" |}.
Proof.
  intros Hp. unfold mux.handler, mux.match_.
  change (mux.hosts (main_mux F G)) with false. cbv iota.
  rewrite main_mux_lookup.
  destruct (decide (p = "/modelRegistry/")) as [->|E1];
    [by rewrite (bool_decide_eq_true_2 ("/modelRegistry/" = "/modelRegistry/"))|].
  rewrite (bool_decide_eq_false_2 _ E1).
  destruct (decide (p = "/")) as [->|E2];
    [by rewrite (bool_decide_eq_true_2 ("/" = "/"))|].
  rewrite (bool_decide_eq_false_2 _ E2).
  cbn [mux.es main_mux filter list_filter mux.pattern].
  rewrite (rooted_HasPrefix p Hp).
  destruct (HasPrefix p "/modelRegistry/") eqn:E; cbn.
  - rewrite decide_True by done. cbn. done.
  - rewrite decide_False by done. rewrite decide_True by done. done.
Qed.

(** Lines 188-191: the two registrations send every request to
    [handleRequest], whatever its path, with two exceptions the mux answers
    itself with a 301 redirect: the path [/modelRegistry], which it sends on
    to [/modelRegistry/], and a path not in clean form, which it sends on to
    its clean form. *)
Theorem routing F G (mx : mux.ServeMux) (host rawHost urlHost : string) (r : http.Request) :
  main_routes F G = Some mx →
  http.Method r ≠ "CONNECT" →
  mux.starts_with_slash host = false →
  mux.Handler_ mx host rawHost urlHost r = routed F G r.
Proof.
  rewrite main_routes_registered. intros [= <-] Hm Hh.
  unfold mux.Handler_, routed. rewrite bool_decide_eq_false_2 by done.
  pose proof (cleanPath_rooted (http.Path r)) as Hp.
  rewrite main_mux_shouldRedirect by done.
  case_bool_decide as E; [by rewrite E|].
  case_bool_decide as E'; cbn [negb].
  - rewrite <-E' at 1. by rewrite main_mux_handler.
  - by rewrite main_mux_handler.
Qed.

Lemma routing_witness :
  mux.Handler_ (main_mux literal unreachable) "localhost" "localhost:8887" ""
    (set_path (request "GET" "" [] "") "/anything/else")
  = mux.Serve (handleRequest literal unreachable) "/".
Proof.
  rewrite (routing literal unreachable (main_mux literal unreachable)
             "localhost" "localhost:8887" "" (set_path (request "GET" "" [] "") "/anything/else")).
  - reflexivity.
  - reflexivity.
  - discriminate.
  - reflexivity.
Defined.
